(** * ANTT RAG: hybrid retrieval, governance filters and confidence validation

    A shallow embedding of

    - [src/services/retrieval_service.py]: [DocumentFilter] and
      [HybridRetriever] (module [Retrieval]);
    - [src/utils/validator.py]: [ResponseValidator] (module [Validator],
      and module [Validator64] for its aggregation step on doubles);
    - [src/services/answer_service.py]: the steps of [generate_answer] that
      turn a retrieval result into the validator's input (module [Answer]).

    Conventions of the embedding.

    - A Python [float] score is an exact rational ([Q]) wherever the
      property at hand does not turn on rounding; there, infinities and NaN
      are outside the model and [==] on scores is [Qeq].  The label that
      [_calculate_confidence] returns does turn on rounding next to a
      threshold, so that function is also embedded on IEEE 754 doubles
      ([Binary64], [Validator64]).
    - A Python exception is the [Err] case of [result].
    - [doc.metadata] is a dict read through a fixed set of keys; it is a
      record with one optional field per key, [None] when the key is absent.
    - A dict whose iteration order matters is an association list in
      insertion order.
    - A count [k] is a natural number; a metadata value has the type the
      ingestion writes for its key. *)

From Stdlib Require Import String Ascii Bool Arith ZArith NArith QArith List.
From Stdlib Require Import Lia Lqa DecimalString.
From Stdlib Require Import Sorting.Sorted Sorting.Permutation.
From Stdlib Require DecimalZ DecimalPos Floats.SpecFloat.
Import ListNotations.

(** ** Python results *)

Inductive error : Type :=
| RuntimeError
| IndexError.

Inductive result (A : Type) : Type :=
| Ok (a : A)
| Err (e : error).
Arguments Ok {A} a.
Arguments Err {A} e.

Definition bind {A B : Type} (m : result A) (f : A -> result B) : result B :=
  match m with
  | Ok a => f a
  | Err e => Err e
  end.

Notation "x <- m ;; k" := (bind m (fun x => k))
  (at level 61, m at next level, right associativity).
Notation "' p <- m ;; k" := (bind m (fun x => let p := x in k))
  (at level 61, p pattern, m at next level, right associativity).

(** [xs[i] for i in idx]: an index out of range raises [IndexError]. *)
Fixpoint select {A : Type} (xs : list A) (idx : list nat) : result (list A) :=
  match idx with
  | [] => Ok []
  | i :: idx' =>
      match nth_error xs i with
      | Some x => rest <- select xs idx' ;; Ok (x :: rest)
      | None => Err IndexError
      end
  end.

(** [dict.get(key, default)] on an optional field. *)
Definition get {A : Type} (field : option A) (default : A) : A :=
  match field with
  | Some v => v
  | None => default
  end.

(** [x or default] on an optional number: [None] and zero are both falsy. *)
Definition nat_or (x : option nat) (default : nat) : nat :=
  match x with
  | Some (S n) => S n
  | _ => default
  end.

Definition float_or (x : option Q) (default : Q) : Q :=
  match x with
  | Some v => if Qeq_bool v 0 then default else v
  | None => default
  end.

(** [d[key] = value] on an insertion-ordered dict: an existing key keeps
    its place, a new key goes last. *)
Fixpoint dict_set {V : Type} (key : string) (value : V)
  (d : list (string * V)) : list (string * V) :=
  match d with
  | [] => [(key, value)]
  | (k', v') :: d' =>
      if (k' =? key)%string then (key, value) :: d'
      else (k', v') :: dict_set key value d'
  end.

(** [min(a, b)] on floats: [b] when [b < a], else [a]. *)
Definition fmin (a b : Q) : Q := if Qle_bool a b then a else b.

(** [sum(xs)]. *)
Definition fsum (xs : list Q) : Q := fold_left Qplus xs 0%Q.

(** An [int] used in a float expression. *)
Definition of_nat (n : nat) : Q := inject_Z (Z.of_nat n).

(** ** retrieval_service.py *)

Module Retrieval.

Open Scope string_scope.

(** [RetrievalStrategy]: the four members of the enum. *)
Inductive RetrievalStrategy : Type :=
| VECTOR_ONLY
| BM25_ONLY
| HYBRID
| HYBRID_RERANK.

(** The keys of [Document.metadata] that the service reads or writes. *)
Record Metadata : Type := {
  md_source : option string;
  md_page : option Z;
  md_tipo : option string;
  md_precedencia : option Z;
  md_status : option string;
  md_vigencia_inicio : option string;
  md_vigencia_fim : option string;
  md_rerank_score : option Q
}.

Record Document : Type := {
  page_content : string;
  metadata : Metadata
}.

(** *** DocumentFilter *)

Definition status_ok (status : string) (doc : Document) : bool :=
  get (md_status (metadata doc)) "Vigente" =? status.

Definition filter_by_status (documents : list Document) (status : string)
  : list Document :=
  filter (status_ok status) documents.

Definition precedence_ok (min_precedence : Z) (doc : Document) : bool :=
  (get (md_precedencia (metadata doc)) 99 <=? min_precedence)%Z.

Definition filter_by_precedence (documents : list Document)
  (min_precedence : option Z) : list Document :=
  match min_precedence with
  | None => documents
  | Some m => filter (precedence_ok m) documents
  end.

(** Truthiness of an optional string: [None] and [""] are falsy. *)
Definition str_truthy (s : option string) : option string :=
  match s with
  | Some (String c r) => Some (String c r)
  | _ => None
  end.

Definition start_ok (start_date : string) (doc : Document) : bool :=
  (start_date <=? get (md_vigencia_inicio (metadata doc)) "")%string.

Definition end_ok (end_date : string) (doc : Document) : bool :=
  (get (md_vigencia_fim (metadata doc)) "9999-12-31" <=? end_date)%string.

Definition filter_by_date_range (documents : list Document)
  (start_date end_date : option string) : list Document :=
  let filtered := documents in
  let filtered :=
    match str_truthy start_date with
    | Some sd => filter (start_ok sd) filtered
    | None => filtered
    end in
  let filtered :=
    match str_truthy end_date with
    | Some ed => filter (end_ok ed) filtered
    | None => filtered
    end in
  filtered.

Definition type_ok (source_types : list string) (doc : Document) : bool :=
  existsb (String.eqb (get (md_tipo (metadata doc)) "")) source_types.

Definition filter_by_source_type (documents : list Document)
  (source_types : option (list string)) : list Document :=
  match source_types with
  | None | Some [] => documents
  | Some types => filter (type_ok types) documents
  end.

Definition apply_all_filters (documents : list Document) (status : string)
  (min_precedence : option Z) (start_date end_date : option string)
  (source_types : option (list string)) : list Document :=
  let filtered := filter_by_status documents status in
  let filtered := filter_by_precedence filtered min_precedence in
  let filtered := filter_by_date_range filtered start_date end_date in
  let filtered := filter_by_source_type filtered source_types in
  filtered.

(** [filter_kwargs]: the keyword dict spread into [apply_all_filters].  A
    field is [None] when its key is absent from the dict; a key that is
    present holds a value of the parameter it goes to, which for the four
    [Optional] parameters can itself be [None]. *)
Record FilterKwargs : Type := {
  kw_status : option string;
  kw_min_precedence : option (option Z);
  kw_start_date : option (option string);
  kw_end_date : option (option string);
  kw_source_types : option (option (list string))
}.

(** Truthiness of the dict: it is falsy only when it has no key. *)
Definition kwargs_truthy (kw : FilterKwargs) : bool :=
  match kw_status kw, kw_min_precedence kw, kw_start_date kw,
        kw_end_date kw, kw_source_types kw with
  | None, None, None, None, None => false
  | _, _, _, _, _ => true
  end.

(** What an [Optional] parameter receives: the value under its key, or its
    default [None] when the key is absent. *)
Definition passed {A : Type} (entry : option (option A)) : option A :=
  match entry with
  | Some value => value
  | None => None
  end.

Definition apply_kwargs (documents : list Document) (kw : FilterKwargs)
  : list Document :=
  apply_all_filters documents (get (kw_status kw) "Vigente")
    (passed (kw_min_precedence kw)) (passed (kw_start_date kw))
    (passed (kw_end_date kw)) (passed (kw_source_types kw)).

(** *** HybridRetriever *)

(** The state of a retriever.  The three external models are the functions
    the service calls on them:
    - [vectorstore query k] is [Chroma.similarity_search_with_score]
      (retrieve never passes a [filter_dict]);
    - [bm25], [None] until [initialize_bm25] has run, is
      [BM25Okapi.get_scores] composed with [query.lower().split()]: one score
      per document of the corpus;
    - [reranker], [None] when disabled, is [CrossEncoder.predict] on
      (query, page_content) pairs.
    The last three fields are [config.retrieval]. *)
Record HybridRetriever : Type := {
  vectorstore : string -> nat -> list (Document * Q);
  bm25 : option (string -> list Q);
  bm25_documents : list Document;
  reranker : option (list (string * string) -> list Q);
  cfg_vector_weight : Q;
  cfg_bm25_weight : Q;
  cfg_default_k : nat
}.

Record RetrievalResult : Type := {
  documents : list Document;
  scores : list Q;
  strategy : RetrievalStrategy;
  meta_query : string;
  meta_k : nat;
  meta_total_results : nat;
  meta_filters_applied : bool
}.

(** [np.argsort]: the indices that sort [scores] ascending.  NumPy leaves the
    order of equal scores to the sort kind; here equal scores keep their
    index order. *)
Fixpoint insert_asc (x : nat * Q) (l : list (nat * Q)) : list (nat * Q) :=
  match l with
  | [] => [x]
  | y :: l' =>
      if Qle_bool (snd x) (snd y) then x :: y :: l' else y :: insert_asc x l'
  end.

Definition argsort (scores : list Q) : list nat :=
  map fst (fold_right insert_asc [] (combine (seq 0 (length scores)) scores)).

(** [sorted(entries, key=score, reverse=True)]: descending and stable. *)
Fixpoint insert_desc (x : Document * Q) (l : list (Document * Q))
  : list (Document * Q) :=
  match l with
  | [] => [x]
  | y :: l' =>
      if Qle_bool (snd y) (snd x) then x :: y :: l' else y :: insert_desc x l'
  end.

Definition sorted_desc (l : list (Document * Q)) : list (Document * Q) :=
  fold_right insert_desc [] l.

(** [min(scores)] and [max(scores)] on a non-empty list [x :: xs]. *)
Definition py_min (x : Q) (xs : list Q) : Q :=
  fold_left (fun m s => if Qle_bool m s then m else s) xs x.

Definition py_max (x : Q) (xs : list Q) : Q :=
  fold_left (fun m s => if Qle_bool s m then m else s) xs x.

Definition _normalize_scores (scores : list Q) : list Q :=
  match scores with
  | [] => []
  | s0 :: rest =>
      let min_score := py_min s0 rest in
      let max_score := py_max s0 rest in
      if Qeq_bool max_score min_score then repeat 1%Q (length scores)
      else map (fun s => (s - min_score) / (max_score - min_score))%Q scores
  end.

Definition str_of_int (z : Z) : string := NilZero.string_of_int (Z.to_int z).

Definition _get_doc_id (doc : Document) : string :=
  get (md_source (metadata doc)) "" ++ "_"
  ++ str_of_int (get (md_page (metadata doc)) 0%Z).

Definition vector_search (self : HybridRetriever) (query : string) (k : nat)
  : list Document * list Q :=
  let results := vectorstore self query k in
  (map fst results, map snd results).

Definition bm25_search (self : HybridRetriever) (query : string) (k : nat)
  : result (list Document * list Q) :=
  match bm25 self with
  | None => Err RuntimeError
  | Some get_scores =>
      let scores := get_scores query in
      let top_indices := firstn k (rev (argsort scores)) in
      documents <- select (bm25_documents self) top_indices ;;
      top_scores <- select scores top_indices ;;
      Ok (documents, top_scores)
  end.

(** The [doc_scores] dict of [hybrid_search]: doc id |-> (doc, score). *)
Definition DocScores : Type := list (string * (Document * Q)).

Fixpoint dict_mem (key : string) (d : DocScores) : bool :=
  match d with
  | [] => false
  | (k', _) :: d' => (k' =? key) || dict_mem key d'
  end.

(** [d[key]["score"] += delta]. *)
Fixpoint dict_add_score (key : string) (delta : Q) (d : DocScores)
  : DocScores :=
  match d with
  | [] => []
  | (k', (doc, s)) :: d' =>
      if k' =? key then (k', (doc, s + delta)%Q) :: d'
      else (k', (doc, s)) :: dict_add_score key delta d'
  end.

Definition add_vector (vector_weight : Q) (d : DocScores) (p : Document * Q)
  : DocScores :=
  let '(doc, score) := p in
  dict_set (_get_doc_id doc) (doc, (score * vector_weight)%Q) d.

Definition add_bm25 (bm25_weight : Q) (d : DocScores) (p : Document * Q)
  : DocScores :=
  let '(doc, score) := p in
  let doc_id := _get_doc_id doc in
  if dict_mem doc_id d then dict_add_score doc_id (score * bm25_weight)%Q d
  else dict_set doc_id (doc, (score * bm25_weight)%Q) d.

(** The two loops that fill [doc_scores]. *)
Definition fuse (vector_weight bm25_weight : Q)
  (vector_results bm25_results : list (Document * Q)) : DocScores :=
  let doc_scores := fold_left (add_vector vector_weight) vector_results [] in
  fold_left (add_bm25 bm25_weight) bm25_results doc_scores.

Definition hybrid_search (self : HybridRetriever) (query : string) (k : nat)
  (vector_weight bm25_weight : option Q) : result (list Document * list Q) :=
  match bm25 self with
  | None => Ok (vector_search self query k)
  | Some _ =>
      let vector_weight := float_or vector_weight (cfg_vector_weight self) in
      let bm25_weight := float_or bm25_weight (cfg_bm25_weight self) in
      let '(vector_docs, vector_scores) := vector_search self query (k * 2) in
      ' (bm25_docs, bm25_scores) <- bm25_search self query (k * 2) ;;
      let vector_scores_norm := _normalize_scores vector_scores in
      let bm25_scores_norm := _normalize_scores bm25_scores in
      let doc_scores :=
        fuse vector_weight bm25_weight
          (combine vector_docs vector_scores_norm)
          (combine bm25_docs bm25_scores_norm) in
      let sorted_results := firstn k (sorted_desc (map snd doc_scores)) in
      Ok (map fst sorted_results, map snd sorted_results)
  end.

(** [doc.metadata["rerank_score"] = score].  The documents are the objects
    held by the indexes; the write is visible only on the returned list. *)
Definition set_rerank_score (p : Document * Q) : Document :=
  let '(doc, score) := p in
  let m := metadata doc in
  {| page_content := page_content doc;
     metadata :=
       {| md_source := md_source m; md_page := md_page m;
          md_tipo := md_tipo m; md_precedencia := md_precedencia m;
          md_status := md_status m;
          md_vigencia_inicio := md_vigencia_inicio m;
          md_vigencia_fim := md_vigencia_fim m;
          md_rerank_score := Some score |} |}.

Definition rerank (self : HybridRetriever) (query : string)
  (documents : list Document) (top_k : option nat)
  : result (list Document * list Q) :=
  match reranker self with
  | None => Ok (documents, repeat 1%Q (length documents))
  | Some predict =>
      match documents with
      | [] => Ok ([], [])
      | _ :: _ =>
          let pairs := map (fun doc => (query, page_content doc)) documents in
          let scores := predict pairs in
          let sorted_indices := rev (argsort scores) in
          let sorted_indices :=
            match top_k with
            | Some (S n) => firstn (S n) sorted_indices
            | _ => sorted_indices
            end in
          reranked_docs <- select documents sorted_indices ;;
          reranked_scores <- select scores sorted_indices ;;
          let reranked_docs :=
            map set_rerank_score (combine reranked_docs reranked_scores) in
          Ok (reranked_docs, reranked_scores)
      end
  end.

(** [d.get(key)], and the score a result list gives to a doc id (its first
    entry with that id); both are used to state what fusion computes. *)
Fixpoint dict_get (key : string) (d : DocScores) : option (Document * Q) :=
  match d with
  | [] => None
  | (k', v) :: d' => if k' =? key then Some v else dict_get key d'
  end.

Fixpoint score_in (doc_id : string) (results : list (Document * Q))
  : option Q :=
  match results with
  | [] => None
  | (doc, score) :: rest =>
      if _get_doc_id doc =? doc_id then Some score else score_in doc_id rest
  end.

(** The strategy dispatch of [retrieve]; the [else: raise ValueError] branch
    needs a strategy outside the enum. *)
Definition run_strategy (self : HybridRetriever) (query : string) (k : nat)
  (strategy : RetrievalStrategy) : result (list Document * list Q) :=
  match strategy with
  | VECTOR_ONLY => Ok (vector_search self query k)
  | BM25_ONLY => bm25_search self query k
  | HYBRID => hybrid_search self query k None None
  | HYBRID_RERANK =>
      ' (documents, scores) <- hybrid_search self query (k * 2) None None ;;
      rerank self query documents (Some k)
  end.

(** The governance step of [retrieve]:
    [if apply_filters and filter_kwargs: ...]. *)
Definition govern (apply_filters : bool)
  (filter_kwargs : option FilterKwargs) (documents : list Document)
  (scores : list Q) : list Document * list Q :=
  match filter_kwargs with
  | Some kw =>
      if apply_filters && kwargs_truthy kw then
        let documents := apply_kwargs documents kw in
        let scores := firstn (length documents) scores in
        (documents, scores)
      else (documents, scores)
  | None => (documents, scores)
  end.

(** [retrieve].  [processing_time] is wall-clock time and is left out. *)
Definition retrieve (self : HybridRetriever) (query : string)
  (k : option nat) (strategy : RetrievalStrategy) (apply_filters : bool)
  (filter_kwargs : option FilterKwargs) : result RetrievalResult :=
  let k := nat_or k (cfg_default_k self) in
  ' (documents, scores) <- run_strategy self query k strategy ;;
  let '(documents, scores) :=
    govern apply_filters filter_kwargs documents scores in
  Ok {| documents := documents;
        scores := scores;
        strategy := strategy;
        meta_query := query;
        meta_k := k;
        meta_total_results := length documents;
        meta_filters_applied := apply_filters |}.

(** *** Notions used to state the properties *)

(** The predicate that the whole pipeline tests on one document. *)
Definition keeps (status : string) (min_precedence : option Z)
  (start_date end_date : option string) (source_types : option (list string))
  (doc : Document) : bool :=
  status_ok status doc
  && match min_precedence with
     | Some m => precedence_ok m doc
     | None => true
     end
  && (match str_truthy start_date with
      | Some sd => start_ok sd doc
      | None => true
      end
      && match str_truthy end_date with
         | Some ed => end_ok ed doc
         | None => true
         end)
  && match source_types with
     | None | Some [] => true
     | Some types => type_ok types doc
     end.

(** Min-max scaling of one score. *)
Definition scale (lo hi s : Q) : Q := (s - lo) / (hi - lo).

(** The vector store honours [k]: it returns at most [k] results. *)
Definition store_honours_k (self : HybridRetriever) : Prop :=
  forall query k, (length (vectorstore self query k) <= k)%nat.

(** Every entry sits under the id of its document. *)
Definition well_keyed (d : DocScores) : Prop :=
  Forall (fun e => fst e = _get_doc_id (fst (snd e))) d.

Definition ids (results : list (Document * Q)) : list string :=
  map (fun p => _get_doc_id (fst p)) results.

Definition get_score (key : string) (d : DocScores) : option Q :=
  option_map snd (dict_get key d).

(** What fusion owes a document that the vector list scores [v] and the
    BM25 list scores [b]. *)
Definition fused_score (vector_weight bm25_weight : Q) (v b : option Q)
  : option Q :=
  match v, b with
  | Some v, Some b => Some (v * vector_weight + b * bm25_weight)
  | Some v, None => Some (v * vector_weight)
  | None, Some b => Some (b * bm25_weight)
  | None, None => None
  end.

Definition dict_ok (d : DocScores) : Prop :=
  NoDup (map fst d) /\ well_keyed d.


(** The (index, score) pairs behind [argsort], in ascending order. *)
Definition ranked_pairs (scores : list Q) : list (nat * Q) :=
  fold_right insert_asc [] (combine (seq 0 (length scores)) scores).

(** [xs] holds [y] at index [i]. *)
Definition at_index {A : Type} (xs : list A) (i : nat) (y : A) : Prop :=
  nth_error xs i = Some y.

End Retrieval.

(** ** A small corpus used to evaluate the service *)

Module Examples.
Import Retrieval.
Open Scope string_scope.

Definition doc (name : string) (status : option string) : Document :=
  {| page_content := name;
     metadata :=
       {| md_source := Some name; md_page := Some 1%Z; md_tipo := None;
          md_precedencia := None; md_status := status;
          md_vigencia_inicio := None; md_vigencia_fim := None;
          md_rerank_score := None |} |}.

Definition docA : Document := doc "a.pdf" (Some "Revogado").
Definition docB : Document := doc "b.pdf" (Some "Vigente").
Definition docC : Document := doc "c.pdf" None.
Definition docD : Document := doc "d.pdf" (Some "Vigente").

(** The vector store ranks A, C, B, D (higher is better); BM25 scores the
    corpus [A; B; C; D] as 0, 1, 4, 3; no reranker is configured; the
    configured weights are 0.75 and 0.25. *)
Definition corpus : HybridRetriever :=
  {| vectorstore :=
       fun _ k => firstn k [(docA, 8); (docC, 7); (docB, 6); (docD, 0)];
     bm25 := Some (fun _ => [0; 1; 4; 3]);
     bm25_documents := [docA; docB; docC; docD];
     reranker := None;
     cfg_vector_weight := 3 # 4;
     cfg_bm25_weight := 1 # 4;
     cfg_default_k := 5 |}.

(** The same retriever configured with the weights 1 and 0. *)
Definition corpus_vector_weighted : HybridRetriever :=
  {| vectorstore := vectorstore corpus;
     bm25 := bm25 corpus;
     bm25_documents := bm25_documents corpus;
     reranker := reranker corpus;
     cfg_vector_weight := 1;
     cfg_bm25_weight := 0;
     cfg_default_k := cfg_default_k corpus |}.

(** The same retriever with a reranker that scores a pair by the first
    character of its passage. *)
Definition by_initial (pairs : list (string * string)) : list Q :=
  map (fun p : string * string =>
         match snd p with
         | String c _ => of_nat (nat_of_ascii c)
         | EmptyString => 0
         end) pairs.

Definition corpus_reranked : HybridRetriever :=
  {| vectorstore := vectorstore corpus;
     bm25 := bm25 corpus;
     bm25_documents := bm25_documents corpus;
     reranker := Some by_initial;
     cfg_vector_weight := cfg_vector_weight corpus;
     cfg_bm25_weight := cfg_bm25_weight corpus;
     cfg_default_k := cfg_default_k corpus |}.




(** [filter_kwargs = {"status": "Vigente"}]. *)
Definition only_vigente : FilterKwargs :=
  {| kw_status := Some "Vigente"; kw_min_precedence := None;
     kw_start_date := None; kw_end_date := None; kw_source_types := None |}.

(** [filter_kwargs = {"min_precedence": None}]. *)
Definition ceiling_unset : FilterKwargs :=
  {| kw_status := None; kw_min_precedence := Some None;
     kw_start_date := None; kw_end_date := None; kw_source_types := None |}.

End Examples.

(** ** validator.py *)

Module Validator.

(** A Python [str] is its sequence of code points, so that [len], [lower]
    and the regex classes count characters and not bytes.  [u] reads a
    UTF-8 literal. *)
Definition str : Type := list N.

Fixpoint utf8_decode (bytes : list N) : str :=
  match bytes with
  | [] => []
  | b0 :: r0 =>
      if (b0 <? 128)%N then b0 :: utf8_decode r0
      else
        match r0 with
        | [] => []
        | b1 :: r1 =>
            if (b0 <? 224)%N then
              ((b0 - 192) * 64 + (b1 - 128))%N :: utf8_decode r1
            else
              match r1 with
              | [] => []
              | b2 :: r2 =>
                  if (b0 <? 240)%N then
                    ((b0 - 224) * 4096 + (b1 - 128) * 64 + (b2 - 128))%N
                    :: utf8_decode r2
                  else
                    match r2 with
                    | [] => []
                    | b3 :: r3 =>
                        ((b0 - 240) * 262144 + (b1 - 128) * 4096
                         + (b2 - 128) * 64 + (b3 - 128))%N
                        :: utf8_decode r3
                    end
              end
        end
  end.

Definition u (s : string) : str :=
  utf8_decode (map N_of_ascii (list_ascii_of_string s)).

(** [str.lower] on Basic Latin and Latin-1 letters; other code points are
    left as they are. *)
Definition lower_char (c : N) : N :=
  if ((65 <=? c) && (c <=? 90))%N then (c + 32)%N
  else if ((192 <=? c) && (c <=? 222) && negb (c =? 215))%N then (c + 32)%N
  else c.

Definition lower (s : str) : str := map lower_char s.

(** [str.isspace], which is also the regex class [\s]. *)
Definition is_space (c : N) : bool :=
  (((9 <=? c) && (c <=? 13)) || ((28 <=? c) && (c <=? 32))
   || (c =? 133) || (c =? 160) || (c =? 5760)
   || ((8192 <=? c) && (c <=? 8202)) || (c =? 8232) || (c =? 8233)
   || (c =? 8239) || (c =? 8287) || (c =? 12288))%N.

(** The decimal digits of Unicode 14.0 (general category Nd), which are the
    characters that the regex class [\d] matches and that [int] reads: 66
    runs of ten code points, each running from digit zero to digit nine.
    The list holds the first code point of each run. *)
Definition decimal_runs : list N :=
  [48; 1632; 1776; 1984; 2406; 2534; 2662; 2790; 2918; 3046; 3174; 3302;
   3430; 3558; 3664; 3792; 3872; 4160; 4240; 6112; 6160; 6470; 6608; 6784;
   6800; 6992; 7088; 7232; 7248; 42528; 43216; 43264; 43472; 43504; 43600;
   44016; 65296; 66720; 68912; 69734; 69872; 69942; 70096; 70384; 70736;
   70864; 71248; 71360; 71472; 71904; 72016; 72784; 73040; 73120; 92768;
   92864; 93008; 120782; 120792; 120802; 120812; 120822; 123200; 123632;
   125264; 130032]%N.

(** The digit zero of the run that [c] belongs to, if [c] is a digit. *)
Definition digit_zero (c : N) : option N :=
  find (fun zero => (zero <=? c) && (c <? zero + 10))%N decimal_runs.

(** The regex class [\d]. *)
Definition is_digit (c : N) : bool :=
  match digit_zero c with
  | Some _ => true
  | None => false
  end.

(** The value of a digit. *)
Definition digit_value (c : N) : nat :=
  match digit_zero c with
  | Some zero => N.to_nat (c - zero)
  | None => 0
  end.

Definition is_upper (c : N) : bool := ((65 <=? c) && (c <=? 90))%N.

(** The fragment of regular expressions the validator uses: a literal
    character, a character class, and a class repeated one or more times. *)
Inductive atom : Type :=
| Chr (c : N)
| Cls (p : N -> bool)
| Plus (p : N -> bool).

Definition regex : Type := list atom.

Definition lit (s : string) : regex := map Chr (u s).

Definition one_of (s : string) (c : N) : bool := existsb (N.eqb c) (u s).

(** Does [re] match a prefix of the text? *)
Fixpoint match_here (re : regex) : str -> bool :=
  match re with
  | [] => fun _ => true
  | Chr c :: re' =>
      fun s =>
        match s with
        | [] => false
        | a :: s' => (a =? c)%N && match_here re' s'
        end
  | Cls p :: re' =>
      fun s =>
        match s with
        | [] => false
        | a :: s' => p a && match_here re' s'
        end
  | Plus p :: re' =>
      fun s =>
        match s with
        | [] => false
        | a :: s' =>
            p a &&
            (fix more (t : str) : bool :=
               match_here re' t
               || match t with
                  | [] => false
                  | b :: t' => p b && more t'
                  end) s'
        end
  end.

(** [re.search(re, s)] as a truth value. *)
Fixpoint re_search (re : regex) (s : str) : bool :=
  match_here re s
  || match s with
     | [] => false
     | _ :: s' => re_search re s'
     end.

Inductive ConfidenceLevel : Type :=
| ALTA
| MEDIA
| BAIXA
| INSUFICIENTE.

Record Evidence : Type := {
  source : string;
  page : option Z;
  document_type : string;
  excerpt : string;
  score : Q;
  precedence : option Z
}.

(** The dict that [validate_response] returns. *)
Record ValidationResult : Type := {
  is_valid : bool;
  confidence : ConfidenceLevel;
  warnings : option (list string);
  scores : list (string * Q)
}.

Definition no_answer_patterns : list regex :=
  [ lit "não localizado";
    lit "não foi encontrad" ++ [Cls (one_of "oa")];
    lit "insuficiente";
    lit "não há informação";
    lit "não consta" ].

Definition conflict_patterns : list regex :=
  [ lit "conflito normativo";
    lit "interpretações conflitantes";
    lit "divergência" ].

Definition _is_no_answer (answer : str) : bool :=
  let answer_lower := lower answer in
  existsb (fun pattern => re_search pattern answer_lower) no_answer_patterns.

Definition _detect_conflicts (answer : str) : bool :=
  let answer_lower := lower answer in
  existsb (fun pattern => re_search pattern answer_lower) conflict_patterns.

(** [re.findall(r"\[(\d+)\]", answer)]: the digit groups, left to right.
    The scan is inside a candidate after a ['['] and while digits follow. *)
Inductive scan : Type :=
| Outside
| Inside (digits : list N).

Fixpoint findall_citations (st : scan) (s : str) : list (list N) :=
  match s with
  | [] => []
  | c :: s' =>
      if (c =? 91)%N then findall_citations (Inside []) s'
      else
        match st with
        | Outside => findall_citations Outside s'
        | Inside ds =>
            if is_digit c then findall_citations (Inside (ds ++ [c])) s'
            else
              match ds with
              | _ :: _ =>
                  if (c =? 93)%N then ds :: findall_citations Outside s'
                  else findall_citations Outside s'
              | [] => findall_citations Outside s'
              end
        end
  end.

(** [int(c)] on a string of decimal digits. *)
Definition int (digits : list N) : nat :=
  fold_left (fun n d => 10 * n + digit_value d)%nat digits 0%nat.

(** [len(answer.split())]. *)
Fixpoint count_words (in_word : bool) (s : str) : nat :=
  match s with
  | [] => 0%nat
  | c :: s' =>
      if is_space c then count_words false s'
      else ((if in_word then 0 else 1) + count_words true s')%nat
  end.

Definition _validate_citations (answer : str) (num_evidences : nat) : Q :=
  let citations := findall_citations Outside answer in
  match citations with
  | [] => 0
  | _ :: _ =>
      let valid_citations :=
        filter (fun n => (1 <=? n)%nat && (n <=? num_evidences)%nat)
          (map int citations) in
      match valid_citations with
      | [] => 0
      | _ :: _ =>
          let unique_citations := length (nodup Nat.eq_dec valid_citations) in
          let citation_coverage :=
            if (0 <? num_evidences)%nat
            then of_nat unique_citations / of_nat num_evidences
            else 0 in
          let citation_density :=
            of_nat (length valid_citations)
            / of_nat (Nat.max (count_words false answer) 1%nat) in
          let citation_density := fmin (citation_density * 100) 1 in
          let score :=
            citation_coverage * (7 # 10) + citation_density * (3 # 10) in
          fmin score 1
      end
  end.

Definition _validate_completeness (answer question : str) : Q :=
  let min_length := 100%nat in
  let ideal_length := 500%nat in
  let answer_length := length answer in
  if (answer_length <? min_length)%nat then 3 # 10
  else
    let length_score :=
      if (ideal_length <=? answer_length)%nat then 1
      else of_nat answer_length / of_nat ideal_length in
    let has_structure :=
      re_search [Chr 46; Plus is_space; Cls is_upper] answer in
    let structure_score := if has_structure then 1 else 7 # 10 in
    let score := length_score * (6 # 10) + structure_score * (4 # 10) in
    fmin score 1.

Definition precedence_scores (evidences : list Evidence) : list Q :=
  flat_map
    (fun e =>
       match precedence e with
       | Some p => [1 - inject_Z p / 100]
       | None => []
       end) evidences.

Definition _validate_evidence_quality (evidences : list Evidence)
  (avg_score : Q) : Q :=
  match evidences with
  | [] => 0
  | _ :: _ =>
      let num_evidences := length evidences in
      let quantity_score := fmin (of_nat num_evidences / 5) 1 in
      let relevance_score := fmin avg_score 1 in
      let precedence_scores := precedence_scores evidences in
      let precedence_score :=
        match precedence_scores with
        | [] => 1 # 2
        | _ :: _ => fsum precedence_scores / of_nat (length precedence_scores)
        end in
      let score :=
        quantity_score * (3 # 10) + relevance_score * (5 # 10)
        + precedence_score * (2 # 10) in
      fmin score 1
  end.

(** The aggregation in exact arithmetic; [Validator64._calculate_confidence]
    is the same function on doubles. *)
Definition _calculate_confidence (scores : list (string * Q))
  (num_evidences : nat) : ConfidenceLevel :=
  let avg_score :=
    match scores with
    | [] => 0
    | _ :: _ => fsum (map snd scores) / of_nat (length scores)
    end in
  let avg_score :=
    if (num_evidences <? 2)%nat then avg_score * (7 # 10)
    else if (5 <=? num_evidences)%nat then avg_score * (11 # 10)
    else avg_score in
  let avg_score := fmin avg_score 1 in
  if Qle_bool (8 # 10) avg_score then ALTA
  else if Qle_bool (6 # 10) avg_score then MEDIA
  else if Qle_bool (4 # 10) avg_score then BAIXA
  else INSUFICIENTE.

(** [x < 0.5] guarding a warning. *)
Definition warn_if_low (x : Q) (message : string) (warnings : list string)
  : list string :=
  if Qle_bool (1 # 2) x then warnings else warnings ++ [message].

Definition validate_response (question answer : str)
  (evidences : list Evidence) (avg_score : Q) : ValidationResult :=
  if _is_no_answer answer then
    {| is_valid := true;
       confidence := INSUFICIENTE;
       warnings := Some ["Resposta indica informação insuficiente"%string];
       scores := [] |}
  else
    let citation_score := _validate_citations answer (length evidences) in
    let scores := dict_set "citations" citation_score [] in
    let warnings :=
      warn_if_low citation_score
        "Poucas citações encontradas na resposta" [] in
    let completeness_score := _validate_completeness answer question in
    let scores := dict_set "completeness" completeness_score scores in
    let warnings :=
      warn_if_low completeness_score
        "Resposta pode estar incompleta" warnings in
    let evidence_score := _validate_evidence_quality evidences avg_score in
    let scores := dict_set "evidence_quality" evidence_score scores in
    let warnings :=
      warn_if_low evidence_score
        "Qualidade das evidências é baixa" warnings in
    if _detect_conflicts answer then
      {| is_valid := true;
         confidence := BAIXA;
         warnings :=
           Some (warnings ++ ["Possível conflito normativo detectado"%string]);
         scores := scores |}
    else
      {| is_valid := true;
         confidence := _calculate_confidence scores (length evidences);
         warnings := match warnings with [] => None | _ :: _ => Some warnings end;
         scores := scores |}.

(** The answer and the evidences of the module's own [__main__] test. *)
Definition sample_answer : str :=
  u "O prazo é de 30 dias [1]. Conforme estabelecido na resolução [2], o processo deve ser iniciado com antecedência.".

Definition sample_evidences : list Evidence :=
  [ {| source := "Resolução 123"; page := Some 1%Z;
       document_type := "Resolução"; excerpt := "Texto exemplo";
       score := 9 # 10; precedence := None |};
    {| source := "Portaria 456"; page := Some 2%Z;
       document_type := "Portaria"; excerpt := "Texto exemplo";
       score := 8 # 10; precedence := None |} ].

(** [needle in haystack] on strings. *)
Definition contains (needle haystack : str) : bool :=
  re_search (map Chr needle) haystack.

Definition is_ascii_letter (c : N) : bool :=
  (((97 <=? c) && (c <=? 122)) || ((65 <=? c) && (c <=? 90)))%N.

(** [xs if xs else None]. *)
Definition none_if_empty {A : Type} (xs : list A) : option (list A) :=
  match xs with
  | [] => None
  | _ :: _ => Some xs
  end.

(** The dict that [validate_question] returns. *)
Record QuestionValidation : Type := {
  q_is_valid : bool;
  q_errors : option (list string);
  q_warnings : option (list string)
}.

Definition question_indicators : list str :=
  map u ["?"; "qual"; "como"; "quando"; "onde"; "quem"; "por que";
         "o que"]%string.

(** [errors.append(message)] when [condition] holds. *)
Definition append_if (condition : bool) (message : string)
  (messages : list string) : list string :=
  if condition then messages ++ [message] else messages.

Definition validate_question (question : str) : QuestionValidation :=
  let errors := [] in
  let warnings := [] in
  let errors :=
    append_if (length question <? 5)%nat
      "Pergunta muito curta (mínimo 5 caracteres)" errors in
  let errors :=
    append_if (1000 <? length question)%nat
      "Pergunta muito longa (máximo 1000 caracteres)" errors in
  let errors :=
    append_if
      (negb (re_search
               [Cls is_ascii_letter; Cls is_ascii_letter;
                Plus is_ascii_letter] question))
      "Pergunta não contém palavras significativas" errors in
  let has_question_indicator :=
    existsb (fun indicator => contains indicator (lower question))
      question_indicators in
  let warnings :=
    append_if (negb has_question_indicator)
      "Texto não parece ser uma pergunta" warnings in
  let is_valid := (length errors =? 0)%nat in
  {| q_is_valid := is_valid;
     q_errors := none_if_empty errors;
     q_warnings := none_if_empty warnings |}.

(** The order of the confidence levels, lowest first. *)
Definition rank (level : ConfidenceLevel) : nat :=
  match level with
  | INSUFICIENTE => 0
  | BAIXA => 1
  | MEDIA => 2
  | ALTA => 3
  end.

(** *** Notions used to state the properties *)

(** The threshold chain that ends [_calculate_confidence]. *)
Definition label (x : Q) : ConfidenceLevel :=
  if Qle_bool (8 # 10) x then ALTA
  else if Qle_bool (6 # 10) x then MEDIA
  else if Qle_bool (4 # 10) x then BAIXA
  else INSUFICIENTE.

(** The phrases that the no-answer and the conflict patterns stand for. *)
Definition no_answer_phrases : list str :=
  map u ["não localizado"; "não foi encontrado"; "não foi encontrada";
         "insuficiente"; "não há informação"; "não consta"]%string.

Definition conflict_phrases : list str :=
  map u ["conflito normativo"; "interpretações conflitantes";
         "divergência"]%string.

(** [phrase] is a substring of [text]. *)
Definition occurs_in (phrase text : str) : Prop :=
  exists pre post, text = pre ++ phrase ++ post.

(** The component scores in the order [validate_response] stores them. *)
Definition components (question answer : str) (evidences : list Evidence)
  (avg_score : Q) : list (string * Q) :=
  [ ("citations"%string, _validate_citations answer (length evidences));
    ("completeness"%string, _validate_completeness answer question);
    ("evidence_quality"%string,
     _validate_evidence_quality evidences avg_score) ].

End Validator.

(** * Double-precision floats *)

(** A Python [float] is an IEEE 754 binary64 number: [spec_float] with 53
    bits of precision and exponents below 1024, every operation rounded to
    the nearest double, ties to even. *)
Module Binary64.
Import SpecFloat.

Definition float : Type := spec_float.
Definition prec : Z := 53.
Definition emax : Z := 1024.

Definition add : float -> float -> float := SFadd prec emax.
Definition mul : float -> float -> float := SFmul prec emax.
Definition div : float -> float -> float := SFdiv prec emax.

(** [x == y], [x < y] and [x <= y]: false when either side is NaN. *)
Definition eqb : float -> float -> bool := SFeqb.
Definition ltb : float -> float -> bool := SFltb.
Definition leb : float -> float -> bool := SFleb.

(** An [int] used in a float expression. *)
Definition of_int (n : Z) : float := binary_normalize prec emax n 0 false.

(** The literal that is written as the decimal n/d: the double nearest to
    it, which is also what dividing the two integers gives. *)
Definition decimal (n d : Z) : float := div (of_int n) (of_int d).

(** [min(a, b)]: [b] when [b < a], else [a]. *)
Definition fmin (a b : float) : float := if ltb b a then b else a.

(** [sum(xs)] on floats, as CPython computes it up to version 3.11: it
    starts from the int 0 and adds from left to right, rounding each sum.
    (From version 3.12 on the built-in carries a compensation term.) *)
Definition fsum (xs : list float) : float := fold_left add xs (of_int 0).


End Binary64.

(** * validator.py: the aggregation step on doubles *)

Module Validator64.
Import Binary64.
Open Scope string_scope.

Definition _calculate_confidence (scores : list (string * float))
  (num_evidences : nat) : Validator.ConfidenceLevel :=
  let avg_score :=
    match scores with
    | [] => of_int 0
    | _ :: _ =>
        div (fsum (map snd scores)) (of_int (Z.of_nat (length scores)))
    end in
  let avg_score :=
    if (num_evidences <? 2)%nat then mul avg_score (decimal 7 10)
    else if (5 <=? num_evidences)%nat then mul avg_score (decimal 11 10)
    else avg_score in
  let avg_score := fmin avg_score (of_int 1) in
  if leb (decimal 8 10) avg_score then Validator.ALTA
  else if leb (decimal 6 10) avg_score then Validator.MEDIA
  else if leb (decimal 4 10) avg_score then Validator.BAIXA
  else Validator.INSUFICIENTE.

(** The [scores] dict as [validate_response] fills it before step 6. *)
Definition stored (citation_score completeness_score evidence_score : float)
  : list (string * float) :=
  dict_set "evidence_quality" evidence_score
    (dict_set "completeness" completeness_score
       (dict_set "citations" citation_score [])).


(** The threshold chain. *)
Definition label (x : float) : Validator.ConfidenceLevel :=
  if leb (decimal 8 10) x then Validator.ALTA
  else if leb (decimal 6 10) x then Validator.MEDIA
  else if leb (decimal 4 10) x then Validator.BAIXA
  else Validator.INSUFICIENTE.

(** The mean after the adjustment for the number of evidences. *)
Definition adjusted (total : float) (n : nat) : float :=
  let mean := div total (of_int 3) in
  if (n <? 2)%nat then mul mean (decimal 7 10)
  else if (5 <=? n)%nat then mul mean (decimal 11 10)
  else mean.

End Validator64.

(** ** answer_service.py: from a retrieval result to the validator *)

Module Answer.
Import Retrieval.
Import Validator.

(** [text[:n]] on a UTF-8 string: the first [n] characters.  A continuation
    byte belongs to the character whose first byte came before it. *)
Fixpoint take_chars (n : nat) (text : string) : string :=
  match text with
  | EmptyString => EmptyString
  | String b rest =>
      if ((128 <=? N_of_ascii b) && (N_of_ascii b <? 192))%N
      then String b (take_chars n rest)
      else
        match n with
        | O => EmptyString
        | S n' => String b (take_chars n' rest)
        end
  end.

(** [_prepare_evidences]: one evidence per (document, score) of the zip. *)
Definition _prepare_evidences (documents : list Document) (scores : list Q)
  : list Evidence :=
  map (fun p : Document * Q =>
         let (doc, score) := p in
         {| source := get (md_source (metadata doc)) "Desconhecido";
            page := md_page (metadata doc);
            document_type := get (md_tipo (metadata doc)) "Normativo";
            excerpt := take_chars 800 (page_content doc);
            score := score;
            precedence := md_precedencia (metadata doc) |})
      (combine documents scores).

(** [sum(scores) / len(scores) if scores else 0.0], the [avg_score] that
    [generate_answer] hands to the validator. *)
Definition average (scores : list Q) : Q :=
  match scores with
  | [] => 0
  | _ :: _ => fsum scores / of_nat (length scores)
  end.

(** Steps 4 and 8 of [generate_answer] on a retrieval result with
    documents, for an answer text already produced. *)
Definition validate_retrieved (question answer : str) (r : RetrievalResult)
  : ValidationResult :=
  let evidences := _prepare_evidences (documents r) (Retrieval.scores r) in
  validate_response question answer evidences (average (Retrieval.scores r)).

End Answer.

(** * Properties *)

(** ** Generic list facts *)

Lemma filter_idem {A : Type} (p : A -> bool) (l : list A) :
  filter p (filter p l) = filter p l.
Proof.
  induction l as [|x l IH]; simpl; [reflexivity|].
  destruct (p x) eqn:Hp; simpl; rewrite ?Hp, IH; reflexivity.
Qed.

Lemma filter_and {A : Type} (p q : A -> bool) (l : list A) :
  filter q (filter p l) = filter (fun x => p x && q x) l.
Proof.
  induction l as [|x l IH]; simpl; [reflexivity|].
  destruct (p x) eqn:Hp; simpl; rewrite ?IH; reflexivity.
Qed.

Lemma filter_true {A : Type} (l : list A) : filter (fun _ => true) l = l.
Proof. induction l as [|x l IH]; simpl; congruence. Qed.

Lemma filter_length_le {A : Type} (p : A -> bool) (l : list A) :
  (length (filter p l) <= length l)%nat.
Proof.
  induction l as [|x l IH]; simpl; [lia|].
  destruct (p x); simpl; lia.
Qed.

(** ** The governance filter pipeline *)

Module FilterTheory.
Import Retrieval.
Open Scope string_scope.

Lemma filter_by_precedence_filter docs mp :
  filter_by_precedence docs mp =
  filter (fun d => match mp with Some m => precedence_ok m d | None => true end)
    docs.
Proof. destruct mp; simpl; [reflexivity | now rewrite filter_true]. Qed.

Lemma filter_by_date_range_filter docs sd ed :
  filter_by_date_range docs sd ed =
  filter (fun d =>
            match str_truthy sd with Some s => start_ok s d | None => true end
            && match str_truthy ed with Some e => end_ok e d | None => true end)
    docs.
Proof.
  unfold filter_by_date_range.
  destruct (str_truthy sd), (str_truthy ed); simpl;
    rewrite ?filter_and, ?filter_true; try reflexivity;
    apply filter_ext; intros d; now rewrite ?andb_true_r.
Qed.

Lemma filter_by_source_type_filter docs st :
  filter_by_source_type docs st =
  filter (fun d => match st with
                   | None | Some [] => true
                   | Some types => type_ok types d
                   end) docs.
Proof.
  destruct st as [[|t ts]|]; simpl; rewrite ?filter_true; reflexivity.
Qed.

Lemma apply_all_filters_filter docs status mp sd ed st :
  apply_all_filters docs status mp sd ed st =
  filter (keeps status mp sd ed st) docs.
Proof.
  unfold apply_all_filters, filter_by_status.
  rewrite filter_by_source_type_filter, filter_by_date_range_filter,
    filter_by_precedence_filter, !filter_and.
  apply filter_ext; intros d; unfold keeps.
  now rewrite !andb_assoc.
Qed.

(** C9: applying the whole pipeline a second time, with the same criteria,
    changes nothing: filter(filter(D, C), C) = filter(D, C) for every
    document list and every status, precedence ceiling, date range and
    source-type list. *)
Theorem apply_all_filters_idempotent
  (D : list Document) (status : string) (min_precedence : option Z)
  (start_date end_date : option string) (source_types : option (list string)) :
  apply_all_filters
    (apply_all_filters D status min_precedence start_date end_date source_types)
    status min_precedence start_date end_date source_types
  = apply_all_filters D status min_precedence start_date end_date source_types.
Proof.
  rewrite !apply_all_filters_filter.
  apply filter_idem.
Qed.

(** The same through the keyword dict that [retrieve] passes. *)
Lemma apply_kwargs_idempotent (D : list Document) (kw : FilterKwargs) :
  apply_kwargs (apply_kwargs D kw) kw = apply_kwargs D kw.
Proof. unfold apply_kwargs. rewrite !apply_all_filters_filter. apply filter_idem. Qed.

Lemma apply_kwargs_length (D : list Document) (kw : FilterKwargs) :
  (length (apply_kwargs D kw) <= length D)%nat.
Proof.
  unfold apply_kwargs. rewrite apply_all_filters_filter.
  apply filter_length_le.
Qed.

(** C10: a document without a status counts as "Vigente", so the status
    filter keeps it exactly when the status asked for is "Vigente" (the
    default); a document without a precedence counts as precedence 99, so a
    configured ceiling keeps it exactly when the ceiling is at least 99. *)
Theorem missing_metadata_defaults (docs : list Document) (doc : Document) :
  (md_status (metadata doc) = None ->
   forall status,
     In doc (filter_by_status docs status) <->
     In doc docs /\ status = "Vigente")
  /\
  (md_precedencia (metadata doc) = None ->
   forall ceiling,
     In doc (filter_by_precedence docs (Some ceiling)) <->
     In doc docs /\ (99 <= ceiling)%Z).
Proof.
  split; intros Hnone.
  - intros status. unfold filter_by_status.
    rewrite filter_In. unfold status_ok. rewrite Hnone. simpl get.
    rewrite String.eqb_eq. intuition congruence.
  - intros ceiling. simpl. rewrite filter_In.
    unfold precedence_ok. rewrite Hnone. simpl get.
    rewrite Z.leb_le. reflexivity.
Qed.

(** The theorem on the example document without status and precedence. *)
Lemma missing_metadata_defaults_witness :
  In Examples.docC
    (filter_by_status [Examples.docA; Examples.docC] "Vigente")
  /\ ~ In Examples.docC
       (filter_by_precedence [Examples.docA; Examples.docC] (Some 98%Z)).
Proof.
  destruct (missing_metadata_defaults [Examples.docA; Examples.docC]
              Examples.docC) as [Hstatus Hprecedence].
  split.
  - apply (Hstatus eq_refl "Vigente").
    split; [right; left; reflexivity | reflexivity].
  - intros Hin. apply (Hprecedence eq_refl 98%Z) in Hin.
    destruct Hin as [_ Hle]. lia.
Defined.

End FilterTheory.

(** ** Score normalisation *)

Module NormalizeTheory.
Import Retrieval.
Open Scope Q_scope.

Lemma py_min_spec (rest : list Q) (x : Q) :
  In (py_min x rest) (x :: rest)
  /\ Forall (fun y => py_min x rest <= y) (x :: rest).
Proof.
  revert x. induction rest as [|s rest IH]; intros x.
  - split; [now left | repeat constructor; apply Qle_refl].
  - unfold py_min. cbn [fold_left]. fold (py_min (if Qle_bool x s then x else s) rest).
    destruct (IH (if Qle_bool x s then x else s)) as [Hin Hall].
    inversion Hall as [|? ? Hhd Htl]; subst.
    destruct (Qle_bool x s) eqn:Hle.
    + apply Qle_bool_iff in Hle. split.
      * destruct Hin as [<-|Hin]; [now left | now right; right].
      * constructor; [exact Hhd|]. constructor; [|exact Htl].
        now apply Qle_trans with x.
    + assert (s < x) as Hlt
        by (apply Qnot_le_lt; intros H; apply Qle_bool_iff in H; congruence).
      split.
      * destruct Hin as [<-|Hin]; [now right; left | now right; right].
      * constructor; [|constructor; [exact Hhd | exact Htl]].
        apply Qle_trans with s; [exact Hhd | now apply Qlt_le_weak].
Qed.

Lemma py_max_spec (rest : list Q) (x : Q) :
  In (py_max x rest) (x :: rest)
  /\ Forall (fun y => y <= py_max x rest) (x :: rest).
Proof.
  revert x. induction rest as [|s rest IH]; intros x.
  - split; [now left | repeat constructor; apply Qle_refl].
  - unfold py_max. cbn [fold_left]. fold (py_max (if Qle_bool s x then x else s) rest).
    destruct (IH (if Qle_bool s x then x else s)) as [Hin Hall].
    inversion Hall as [|? ? Hhd Htl]; subst.
    destruct (Qle_bool s x) eqn:Hle.
    + apply Qle_bool_iff in Hle. split.
      * destruct Hin as [<-|Hin]; [now left | now right; right].
      * constructor; [exact Hhd|]. constructor; [|exact Htl].
        now apply Qle_trans with x.
    + assert (x < s) as Hlt
        by (apply Qnot_le_lt; intros H; apply Qle_bool_iff in H; congruence).
      split.
      * destruct Hin as [<-|Hin]; [now right; left | now right; right].
      * constructor; [|constructor; [exact Hhd | exact Htl]].
        apply Qle_trans with s; [now apply Qlt_le_weak | exact Hhd].
Qed.

Lemma scale_range (lo hi s : Q) :
  lo < hi -> lo <= s -> s <= hi -> 0 <= scale lo hi s /\ scale lo hi s <= 1.
Proof.
  intros Hlt Hlo Hhi. unfold scale. split.
  - apply Qle_shift_div_l; lra.
  - apply Qle_shift_div_r; lra.
Qed.

Lemma scale_mono (lo hi s t : Q) :
  lo < hi -> s <= t -> scale lo hi s <= scale lo hi t.
Proof.
  intros Hlt Hst. unfold scale, Qdiv.
  apply Qmult_le_compat_r; [lra|].
  apply Qinv_le_0_compat. lra.
Qed.

Lemma length_normalize (scores : list Q) :
  length (_normalize_scores scores) = length scores.
Proof.
  destruct scores as [|s0 rest]; [reflexivity|].
  unfold _normalize_scores.
  destruct (Qeq_bool _ _); [apply repeat_length | apply length_map].
Qed.

Lemma nth_repeat_lt {A : Type} (a d : A) (n i : nat) :
  (i < n)%nat -> nth i (repeat a n) d = a.
Proof.
  revert i. induction n as [|n IH]; intros i Hi; [lia|].
  destruct i as [|i]; simpl; [reflexivity | apply IH; lia].
Qed.

Lemma normalize_cases (s0 : Q) (rest : list Q) :
  let lo := py_min s0 rest in
  let hi := py_max s0 rest in
  (hi == lo /\
   _normalize_scores (s0 :: rest) = repeat 1 (length (s0 :: rest)))
  \/
  (lo < hi /\
   _normalize_scores (s0 :: rest) = map (scale lo hi) (s0 :: rest)).
Proof.
  intros lo hi. unfold _normalize_scores. fold lo hi.
  destruct (Qeq_bool hi lo) eqn:Heq.
  - left. split; [now apply Qeq_bool_eq | reflexivity].
  - right. split; [|reflexivity].
    apply Qeq_bool_neq in Heq.
    destruct (py_min_spec rest s0) as [Hin _].
    destruct (py_max_spec rest s0) as [_ Hall].
    rewrite Forall_forall in Hall. specialize (Hall _ Hin). fold lo hi in Hall.
    apply Qle_lteq in Hall. destruct Hall as [Hlt|Heq']; [exact Hlt|].
    exfalso. apply Heq. now symmetry.
Qed.

(** C6: [_normalize_scores] returns [[]] on [[]]; on a non-empty list, with
    [lo] and [hi] the least and greatest score, it returns 1.0 for every
    element when [hi == lo] and [(s - lo) / (hi - lo)] for each [s]
    otherwise.  Hence the output has the length of the input, every output
    lies in [0, 1], and a score that is not greater than another is not
    normalised to a greater value. *)
Theorem normalize_scores_spec (scores : list Q) :
  match scores with
  | [] => _normalize_scores scores = []
  | s0 :: rest =>
      let lo := py_min s0 rest in
      let hi := py_max s0 rest in
      (In lo scores /\ Forall (fun s => lo <= s) scores)
      /\ (In hi scores /\ Forall (fun s => s <= hi) scores)
      /\ (hi == lo -> _normalize_scores scores = repeat 1 (length scores))
      /\ (~ hi == lo ->
          _normalize_scores scores
          = map (fun s => (s - lo) / (hi - lo)) scores)
  end
  /\ length (_normalize_scores scores) = length scores
  /\ Forall (fun x => 0 <= x /\ x <= 1) (_normalize_scores scores)
  /\ (forall i j : nat,
        (i < length scores)%nat -> (j < length scores)%nat ->
        nth i scores 0 <= nth j scores 0 ->
        nth i (_normalize_scores scores) 0
        <= nth j (_normalize_scores scores) 0).
Proof.
  destruct scores as [|s0 rest].
  - repeat split; [constructor | simpl; intros; lia].
  - pose proof (py_min_spec rest s0) as Hmin.
    pose proof (py_max_spec rest s0) as Hmax.
    pose proof (normalize_cases s0 rest) as Hcases.
    cbv zeta in Hcases |- *.
    set (lo := py_min s0 rest) in *. set (hi := py_max s0 rest) in *.
    destruct Hmin as [Hmin_in Hmin_all], Hmax as [Hmax_in Hmax_all].
    split; [|split; [apply length_normalize|]].
    + repeat split; try assumption.
      * intros Heq. destruct Hcases as [[_ ->]|[Hlt _]]; [reflexivity|].
        rewrite Heq in Hlt. exfalso. now apply (Qlt_irrefl lo).
      * intros Hneq. destruct Hcases as [[Heq _]|[_ ->]]; [contradiction|].
        reflexivity.
    + destruct Hcases as [[_ Hrep]|[Hlt Hmap]].
      * rewrite Hrep. split.
        -- apply Forall_forall. intros x Hx. apply repeat_spec in Hx.
           subst x. split; lra.
        -- intros i j Hi Hj _. rewrite !nth_repeat_lt by assumption.
           apply Qle_refl.
      * rewrite Hmap. rewrite Forall_forall in Hmin_all, Hmax_all. split.
        -- apply Forall_forall. intros x Hx. apply in_map_iff in Hx.
           destruct Hx as [s [<- Hs]].
           apply scale_range; [exact Hlt | now apply Hmin_all | now apply Hmax_all].
        -- intros i j Hi Hj Hle.
           rewrite (nth_indep _ 0 (scale lo hi 0)) by (now rewrite length_map).
           rewrite (nth_indep _ 0 (scale lo hi 0) (n := j))
             by (now rewrite length_map).
           rewrite !map_nth. now apply scale_mono.
Qed.

(** The theorem at [[1; 3; 2]]: the greatest score goes to 1 and the
    second position stays above the third. *)
Lemma normalize_scores_spec_witness :
  nth 2 (_normalize_scores [1; 3; 2]) 0 <= nth 1 (_normalize_scores [1; 3; 2]) 0.
Proof.
  destruct (normalize_scores_spec [1; 3; 2]) as [_ [_ [_ Hmono]]].
  apply (Hmono 2%nat 1%nat).
  - simpl; lia.
  - simpl; lia.
  - simpl. lra.
Defined.

End NormalizeTheory.

(** ** The retrieval orchestrator *)

Module RetrieveTheory.
Import Retrieval.
Open Scope string_scope.
Open Scope nat_scope.

Lemma select_length {A : Type} (xs : list A) (idx : list nat) (ys : list A) :
  select xs idx = Ok ys -> length ys = length idx.
Proof.
  revert ys. induction idx as [|i idx IH]; intros ys H; simpl in H.
  - now inversion H.
  - destruct (nth_error xs i); [|discriminate].
    destruct (select xs idx) as [rest|]; simpl in H; [|discriminate].
    inversion H; subst. simpl. now rewrite (IH rest).
Qed.

Lemma vector_search_lengths self query k docs scores :
  vector_search self query k = (docs, scores) ->
  length docs = length scores /\ length docs = length (vectorstore self query k).
Proof.
  unfold vector_search. intros H. inversion H; subst.
  now rewrite !length_map.
Qed.

Lemma bm25_search_lengths self query k docs scores :
  bm25_search self query k = Ok (docs, scores) ->
  length docs = length scores /\ (length docs <= k)%nat.
Proof.
  unfold bm25_search. intros H.
  destruct (bm25 self) as [get_scores|]; [|discriminate].
  destruct (select (bm25_documents self) _) as [ds|] eqn:Hd; simpl in H;
    [|discriminate].
  destruct (select (get_scores query) _) as [ss|] eqn:Hs; simpl in H;
    [|discriminate].
  inversion H; subst.
  apply select_length in Hd, Hs. rewrite Hd, Hs.
  split; [reflexivity | apply firstn_le_length].
Qed.

Lemma hybrid_search_lengths self query k vw bw docs scores :
  hybrid_search self query k vw bw = Ok (docs, scores) ->
  length docs = length scores
  /\ (store_honours_k self -> (length docs <= k)%nat).
Proof.
  unfold hybrid_search. intros H.
  destruct (bm25 self) as [get_scores|] eqn:Hbm.
  - destruct (vector_search self query (k * 2)) as [vd vs].
    destruct (bm25_search self query (k * 2)) as [[bd bs]|]; simpl in H;
      [|discriminate].
    inversion H; subst. rewrite !length_map.
    split; [reflexivity | intros _; apply firstn_le_length].
  - assert (vector_search self query k = (docs, scores)) as Hv by congruence.
    apply vector_search_lengths in Hv.
    destruct Hv as [Heq Hlen]. split; [exact Heq|].
    intros Hstore. rewrite Hlen. apply Hstore.
Qed.

Lemma rerank_lengths self query docs top_k docs' scores' :
  rerank self query docs top_k = Ok (docs', scores') ->
  length docs' = length scores'.
Proof.
  unfold rerank. intros H.
  destruct (reranker self) as [predict|].
  - destruct docs as [|d0 docs]; [now inversion H|].
    destruct (select (d0 :: docs) _) as [ds|] eqn:Hd; simpl in H;
      [|discriminate].
    destruct (select (predict _) _) as [ss|] eqn:Hs; simpl in H;
      [|discriminate].
    inversion H; subst.
    apply select_length in Hd, Hs.
    assert (length ds = length scores') as E
      by (etransitivity; [exact Hd | symmetry; exact Hs]).
    rewrite length_map, length_combine. lia.
  - inversion H; subst. now rewrite repeat_length.
Qed.

(** With a reranker, [rerank] honours a positive [top_k]. *)
Lemma rerank_at_most_top_k self query docs k docs' scores' :
  reranker self <> None ->
  rerank self query docs (Some (S k)) = Ok (docs', scores') ->
  (length docs' <= S k)%nat.
Proof.
  unfold rerank. intros Hre H.
  destruct (reranker self) as [predict|]; [|congruence].
  destruct docs as [|d0 docs]; [inversion H; simpl; lia|].
  destruct (select (d0 :: docs) _) as [ds|] eqn:Hd; simpl in H; [|discriminate].
  destruct (select (predict _) _) as [ss|] eqn:Hs; simpl in H; [|discriminate].
  inversion H; subst.
  apply select_length in Hd, Hs.
  assert (length ds = length scores') as E
    by (etransitivity; [exact Hd | symmetry; exact Hs]).
  rewrite length_map, length_combine, E, Nat.min_id, <- E, Hd.
  apply firstn_le_length.
Qed.

(** [retrieve] is its two stages. *)
Lemma retrieve_stages self query k strategy apply_filters filter_kwargs r :
  retrieve self query k strategy apply_filters filter_kwargs = Ok r ->
  exists docs0 scores0,
    run_strategy self query (nat_or k (cfg_default_k self)) strategy
    = Ok (docs0, scores0)
    /\ (documents r, scores r)
       = govern apply_filters filter_kwargs docs0 scores0.
Proof.
  unfold retrieve. intros H.
  destruct (run_strategy _ _ _ _) as [[docs0 scores0]|]; simpl in H;
    [|discriminate].
  exists docs0, scores0. split; [reflexivity|].
  destruct (govern _ _ _ _) as [d s]. now inversion H.
Qed.

Lemma run_strategy_lengths self query k strategy docs scores :
  run_strategy self query k strategy = Ok (docs, scores) ->
  length docs = length scores.
Proof.
  destruct strategy; simpl; intros H.
  - assert (vector_search self query k = (docs, scores)) as Hv by congruence.
    now apply vector_search_lengths in Hv.
  - now apply bm25_search_lengths in H.
  - now apply hybrid_search_lengths in H.
  - destruct (hybrid_search _ _ _ _ _) as [[d s]|]; simpl in H; [|discriminate].
    now apply rerank_lengths in H.
Qed.

Lemma govern_lengths af fk docs scores docs' scores' :
  length docs = length scores ->
  govern af fk docs scores = (docs', scores') ->
  length docs' = length scores' /\ (length docs' <= length docs)%nat.
Proof.
  intros Hlen. unfold govern.
  destruct fk as [kw|]; [destruct (af && kwargs_truthy kw)|];
    intros H; inversion H; subst; try (split; [assumption | lia]).
  pose proof (FilterTheory.apply_kwargs_length docs kw) as Hle.
  rewrite length_firstn. lia.
Qed.

(** The two lists of every result have the same length. *)
Lemma retrieve_lengths_agree self query k strategy af fk r :
  retrieve self query k strategy af fk = Ok r ->
  length (documents r) = length (scores r).
Proof.
  intros H. apply retrieve_stages in H.
  destruct H as [docs0 [scores0 [Hrun Hgov]]].
  apply run_strategy_lengths in Hrun.
  symmetry in Hgov.
  now destruct (govern_lengths _ _ _ _ _ _ Hrun Hgov).
Qed.

(** Outside the degraded reranking mode a result has at most [k] documents,
    [k] being the requested value or the configured default. *)
Lemma retrieve_at_most_k self query k strategy af fk r :
  store_honours_k self ->
  strategy <> HYBRID_RERANK \/ reranker self <> None ->
  retrieve self query k strategy af fk = Ok r ->
  (length (documents r) <= nat_or k (cfg_default_k self))%nat.
Proof.
  intros Hstore Hmode H. apply retrieve_stages in H.
  destruct H as [docs0 [scores0 [Hrun Hgov]]].
  pose proof (run_strategy_lengths _ _ _ _ _ _ Hrun) as Hlen.
  symmetry in Hgov.
  destruct (govern_lengths _ _ _ _ _ _ Hlen Hgov) as [_ Hle].
  enough (length docs0 <= nat_or k (cfg_default_k self))%nat by lia.
  clear Hgov Hle Hlen. set (k' := nat_or k (cfg_default_k self)) in *.
  destruct strategy; simpl in Hrun.
  - assert (vector_search self query k' = (docs0, scores0)) as Hv by congruence.
    apply vector_search_lengths in Hv. destruct Hv as [_ ->]. apply Hstore.
  - now apply bm25_search_lengths in Hrun.
  - apply hybrid_search_lengths in Hrun. now apply Hrun.
  - destruct Hmode as [Hs|Hre]; [congruence|].
    destruct (hybrid_search _ _ _ _ _) as [[d s]|] eqn:Hh; simpl in Hrun;
      [|discriminate].
    destruct k' as [|n].
    + apply hybrid_search_lengths in Hh. destruct Hh as [_ Hh].
      specialize (Hh Hstore). simpl in Hh.
      destruct d; [|simpl in Hh; lia].
      unfold rerank in Hrun. destruct (reranker self); [|congruence].
      inversion Hrun. simpl. lia.
    + eapply rerank_at_most_top_k; eassumption.
Qed.

(** What the governance step does to the scores: it keeps as many as there
    are documents left, from the front. *)
Lemma govern_truncates_scores kw docs scores :
  kwargs_truthy kw = true ->
  govern true (Some kw) docs scores
  = (apply_kwargs docs kw, firstn (length (apply_kwargs docs kw)) scores).
Proof. unfold govern. now intros ->. Qed.

(** C1: with a status filter that removes the first of two documents, the
    service returns the second document paired with the score of the first:
    the scores are cut to the new length, not filtered with their
    documents. *)
Theorem retrieve_filter_misaligns_scores :
  vector_search Examples.corpus "q" 2
  = ([Examples.docA; Examples.docC], [8; 7]%Q)
  /\ apply_kwargs [Examples.docA; Examples.docC] Examples.only_vigente
     = [Examples.docC]
  /\ exists r,
       retrieve Examples.corpus "q" (Some 2) VECTOR_ONLY true
         (Some Examples.only_vigente) = Ok r
       /\ documents r = [Examples.docC]
       /\ scores r = [8]%Q.
Proof.
  split; [reflexivity|]. split; [reflexivity|].
  eexists. split; [reflexivity|]. split; reflexivity.
Qed.

(** C2: without a reranker, [retrieve] with HYBRID_RERANK and k = 1 returns
    two documents: the early return of [rerank] does not apply [top_k]. *)
Theorem retrieve_degraded_rerank_exceeds_k :
  reranker Examples.corpus = None
  /\ exists r,
       retrieve Examples.corpus "q" (Some 1) HYBRID_RERANK true None = Ok r
       /\ documents r = [Examples.docC; Examples.docA]
       /\ length (documents r) = 2
       /\ meta_k r = 1.
Proof.
  split; [reflexivity|].
  eexists. split; [vm_compute; reflexivity|]. repeat split.
Qed.

Lemma nat_or_double (k : option nat) (d : nat) :
  nat_or (Some (nat_or k d * 2)) d = nat_or k d * 2.
Proof.
  destruct k as [[|n]|]; simpl; try reflexivity; destruct d; reflexivity.
Qed.

Lemma rerank_without_reranker self query docs top_k :
  reranker self = None ->
  rerank self query docs top_k = Ok (docs, repeat 1%Q (length docs)).
Proof. unfold rerank. now intros ->. Qed.

(** C3 as stated fails: on the example corpus, without a reranker and with
    k = 1, HYBRID returns [A] while HYBRID_RERANK returns [C; A]: not even
    the first document is the one HYBRID returns. *)
Lemma degraded_rerank_is_not_hybrid_top_k :
  reranker Examples.corpus = None
  /\ exists r_rerank r_hybrid,
       retrieve Examples.corpus "q" (Some 1) HYBRID_RERANK true None
       = Ok r_rerank
       /\ retrieve Examples.corpus "q" (Some 1) HYBRID true None
          = Ok r_hybrid
       /\ documents r_hybrid = [Examples.docA]
       /\ documents r_rerank = [Examples.docC; Examples.docA]
       /\ firstn 1 (documents r_rerank) <> documents r_hybrid.
Proof.
  split; [reflexivity|].
  eexists. eexists.
  split; [vm_compute; reflexivity|].
  split; [vm_compute; reflexivity|].
  split; [reflexivity|]. split; [reflexivity|].
  simpl. intros H. discriminate H.
Qed.

(** C3, amended: when no reranker is configured and no filter criteria are
    supplied, whenever HYBRID returns for the doubled k, HYBRID_RERANK
    returns too; its first k documents are the first k documents of that
    HYBRID result (the fused ranking of the doubled shortlist), and every
    score it returns is 1.0. *)
Theorem hybrid_rerank_degraded
  (self : HybridRetriever) (query : string) (k : option nat)
  (apply_filters : bool) (r_hybrid : RetrievalResult) :
  reranker self = None ->
  retrieve self query (Some (nat_or k (cfg_default_k self) * 2)) HYBRID
    apply_filters None = Ok r_hybrid ->
  exists r,
    retrieve self query k HYBRID_RERANK apply_filters None = Ok r
    /\ firstn (nat_or k (cfg_default_k self)) (documents r)
       = firstn (nat_or k (cfg_default_k self)) (documents r_hybrid)
    /\ Forall (fun s => s = 1%Q) (scores r)
    /\ length (scores r) = length (documents r).
Proof.
  intros Hre. unfold retrieve. rewrite nat_or_double.
  set (k' := nat_or k (cfg_default_k self)). simpl run_strategy.
  destruct (hybrid_search self query (k' * 2) None None) as [[d s]|];
    simpl; [|discriminate].
  intros H. inversion H; subst; clear H.
  rewrite (rerank_without_reranker _ _ _ _ Hre). simpl.
  eexists. split; [reflexivity|]. simpl.
  split; [reflexivity|]. split.
  - apply Forall_forall. intros x Hx. now apply repeat_spec in Hx.
  - apply repeat_length.
Qed.

(** The amended statement on the example corpus, k = 1. *)
Lemma hybrid_rerank_degraded_witness :
  exists r,
    retrieve Examples.corpus "q" (Some 1) HYBRID_RERANK true None = Ok r
    /\ firstn 1 (documents r) = [Examples.docC]
    /\ Forall (fun s => s = 1%Q) (scores r)
    /\ length (scores r) = length (documents r).
Proof.
  destruct (retrieve Examples.corpus "q" (Some 2) HYBRID true None)
    as [r_hybrid|] eqn:Hh; [|vm_compute in Hh; discriminate Hh].
  destruct (hybrid_rerank_degraded Examples.corpus "q" (Some 1) true r_hybrid
              eq_refl Hh) as [r [Hr [Hfirst Hrest]]].
  exists r. split; [exact Hr|]. split; [|exact Hrest].
  change (firstn 1 (documents r) = firstn 1 (documents r_hybrid)) in Hfirst.
  rewrite Hfirst. vm_compute in Hh. inversion Hh. reflexivity.
Defined.

(** A weight of zero is falsy: [x or default] replaces it. *)
Lemma float_or_zero (default : Q) : float_or (Some 0%Q) default = default.
Proof. reflexivity. Qed.

(** C4: a caller that passes vector_weight = 1 and bm25_weight = 0 gets the
    configured BM25 weight instead of 0, whatever the retriever; on the
    example corpus (configured BM25 weight 0.25) the fused ranking for k = 2
    is [C; A] while vector search gives [A; C].  With the weights 1 and 0
    in force (here through the configuration) the ranking is [A; C]. *)
Theorem hybrid_search_zero_weight_ignored :
  (forall self query k vector_weight,
     hybrid_search self query k vector_weight (Some 0%Q)
     = hybrid_search self query k vector_weight None)
  /\ vector_search Examples.corpus "q" 2
     = ([Examples.docA; Examples.docC], [8; 7]%Q)
  /\ exists scores,
       hybrid_search Examples.corpus "q" 2 (Some 1%Q) (Some 0%Q)
       = Ok ([Examples.docC; Examples.docA], scores)
       /\ Forall2 Qeq scores [9 # 8; 1]%Q
       /\ exists scores',
            hybrid_search Examples.corpus_vector_weighted "q" 2 None None
            = Ok ([Examples.docA; Examples.docC], scores').
Proof.
  split; [reflexivity|]. split; [reflexivity|].
  eexists. split; [vm_compute; reflexivity|].
  split; [repeat constructor; reflexivity|].
  eexists. vm_compute. reflexivity.
Qed.

End RetrieveTheory.

(** ** Fusion *)

Module FusionTheory.
Import Retrieval.
Open Scope string_scope.
Open Scope Q_scope.

(** *** The dict operations *)

Lemma dict_get_set key key' value (d : DocScores) :
  dict_get key (dict_set key' value d)
  = if key' =? key then Some value else dict_get key d.
Proof.
  induction d as [|[k0 v0] d IH]; simpl.
  - destruct (key' =? key); reflexivity.
  - destruct (k0 =? key') eqn:E0; simpl.
    + apply String.eqb_eq in E0. subst k0.
      destruct (key' =? key); reflexivity.
    + destruct (k0 =? key) eqn:E1; [|exact IH].
      apply String.eqb_eq in E1. rewrite E1, String.eqb_sym in E0.
      now rewrite E0.
Qed.

Lemma dict_get_add_score key key' delta (d : DocScores) :
  dict_get key (dict_add_score key' delta d)
  = if key' =? key
    then option_map (fun e => (fst e, snd e + delta)) (dict_get key d)
    else dict_get key d.
Proof.
  induction d as [|[k0 [doc0 s0]] d IH]; simpl.
  - destruct (key' =? key); reflexivity.
  - destruct (k0 =? key') eqn:E0; simpl.
    + apply String.eqb_eq in E0. subst k0.
      destruct (key' =? key); reflexivity.
    + destruct (k0 =? key) eqn:E1; [|exact IH].
      apply String.eqb_eq in E1. rewrite E1, String.eqb_sym in E0.
      now rewrite E0.
Qed.

Lemma dict_mem_get key (d : DocScores) :
  dict_mem key d = match dict_get key d with Some _ => true | None => false end.
Proof.
  induction d as [|[k0 v0] d IH]; simpl; [reflexivity|].
  destruct (k0 =? key); simpl; [reflexivity | exact IH].
Qed.

Lemma dict_get_in key (d : DocScores) :
  In key (map fst d) <-> dict_get key d <> None.
Proof.
  induction d as [|[k0 v0] d IH]; simpl.
  - intuition congruence.
  - destruct (k0 =? key) eqn:E.
    + apply String.eqb_eq in E. split; [congruence | now left].
    + apply String.eqb_neq in E. rewrite <- IH. intuition congruence.
Qed.

Lemma dict_get_nodup key value (d : DocScores) :
  NoDup (map fst d) -> In (key, value) d -> dict_get key d = Some value.
Proof.
  induction d as [|[k0 v0] d IH]; simpl; intros Hnd Hin; [contradiction|].
  inversion Hnd as [|? ? Hnotin Hnd']; subst.
  destruct Hin as [Heq|Hin].
  - inversion Heq; subst. now rewrite String.eqb_refl.
  - destruct (k0 =? key) eqn:E; [|now apply IH].
    apply String.eqb_eq in E. subst k0. exfalso. apply Hnotin.
    apply in_map_iff. now exists (key, value).
Qed.

Lemma keys_dict_add_score key delta (d : DocScores) :
  map fst (dict_add_score key delta d) = map fst d.
Proof.
  induction d as [|[k0 [doc0 s0]] d IH]; simpl; [reflexivity|].
  destruct (k0 =? key); simpl; congruence.
Qed.

Lemma keys_dict_set key (value : Document * Q) (d : DocScores) :
  map fst (dict_set key value d)
  = if dict_mem key d then map fst d else (map fst d ++ [key])%list.
Proof.
  induction d as [|[k0 v0] d IH]; simpl; [reflexivity|].
  destruct (k0 =? key) eqn:E; simpl.
  - apply String.eqb_eq in E. now subst.
  - rewrite IH. destruct (dict_mem key d); reflexivity.
Qed.

Lemma nodup_keys_dict_set key (value : Document * Q) (d : DocScores) :
  NoDup (map fst d) -> NoDup (map fst (dict_set key value d)).
Proof.
  intros Hnd. rewrite keys_dict_set.
  destruct (dict_mem key d) eqn:Hmem; [exact Hnd|].
  apply NoDup_app; [exact Hnd | repeat constructor; intros [] | ].
  intros x Hx [Heq|[]]. subst x.
  apply dict_get_in in Hx. rewrite dict_mem_get in Hmem.
  destruct (dict_get key d); congruence.
Qed.

Lemma well_keyed_dict_set doc score (d : DocScores) :
  well_keyed d -> well_keyed (dict_set (_get_doc_id doc) (doc, score) d).
Proof.
  unfold well_keyed.
  induction d as [|[k0 v0] d IH]; simpl; intros H.
  - now repeat constructor.
  - inversion H; subst. destruct (k0 =? _get_doc_id doc).
    + now constructor.
    + constructor; [assumption | now apply IH].
Qed.

Lemma well_keyed_dict_add_score key delta (d : DocScores) :
  well_keyed d -> well_keyed (dict_add_score key delta d).
Proof.
  unfold well_keyed.
  induction d as [|[k0 [doc0 s0]] d IH]; simpl; intros H; [constructor|].
  inversion H; subst. destruct (k0 =? key); constructor; auto.
Qed.

(** *** The two loops *)

Lemma score_in_none key results :
  ~ In key (ids results) -> score_in key results = None.
Proof.
  induction results as [|[doc s] rest IH]; simpl; intros H; [reflexivity|].
  destruct (_get_doc_id doc =? key) eqn:E.
  - apply String.eqb_eq in E. exfalso. apply H. now left.
  - apply IH. intros Hin. apply H. now right.
Qed.


Lemma fold_add_vector vw results :
  forall (d : DocScores) key,
    NoDup (ids results) ->
    get_score key (fold_left (add_vector vw) results d)
    = match score_in key results with
      | Some v => Some (v * vw)
      | None => get_score key d
      end.
Proof.
  induction results as [|[doc v] rest IH]; intros d key Hnd; simpl;
    [reflexivity|].
  inversion Hnd as [|? ? Hnotin Hnd']; subst.
  rewrite IH by assumption. unfold get_score at 1.
  rewrite dict_get_set.
  destruct (_get_doc_id doc =? key) eqn:E.
  - apply String.eqb_eq in E. simpl in Hnotin. rewrite E in Hnotin.
    now rewrite (score_in_none _ _ Hnotin).
  - reflexivity.
Qed.

Lemma fold_add_bm25 bw results :
  forall (d : DocScores) key,
    NoDup (ids results) ->
    get_score key (fold_left (add_bm25 bw) results d)
    = match get_score key d, score_in key results with
      | Some s, Some b => Some (s + b * bw)
      | Some s, None => Some s
      | None, Some b => Some (b * bw)
      | None, None => None
      end.
Proof.
  induction results as [|[doc b] rest IH]; intros d key Hnd; simpl.
  - destruct (get_score key d); reflexivity.
  - inversion Hnd as [|? ? Hnotin Hnd']; subst.
    rewrite IH by assumption. simpl in Hnotin.
    unfold get_score at 1. rewrite dict_mem_get.
    destruct (_get_doc_id doc =? key) eqn:E.
    + pose proof E as E'. apply String.eqb_eq in E'. rewrite E' in *.
      rewrite (score_in_none _ _ Hnotin). unfold get_score.
      destruct (dict_get key d) as [[doc0 s0]|] eqn:Hget.
      * rewrite dict_get_add_score, String.eqb_refl, Hget. reflexivity.
      * rewrite dict_get_set, String.eqb_refl. reflexivity.
    + unfold get_score.
      destruct (dict_get (_get_doc_id doc) d) as [e|].
      * rewrite dict_get_add_score, E. reflexivity.
      * rewrite dict_get_set, E. reflexivity.
Qed.

Lemma fold_left_invariant {A B : Type} (P : A -> Prop) (f : A -> B -> A)
  (l : list B) (a : A) :
  (forall a b, P a -> P (f a b)) -> P a -> P (fold_left f l a).
Proof. intros Hstep. revert a. induction l; simpl; auto. Qed.

Lemma add_vector_ok vw d p : dict_ok d -> dict_ok (add_vector vw d p).
Proof.
  destruct p as [doc s]. intros [Hnd Hwk]. split; simpl.
  - now apply nodup_keys_dict_set.
  - now apply well_keyed_dict_set.
Qed.

Lemma add_bm25_ok bw d p : dict_ok d -> dict_ok (add_bm25 bw d p).
Proof.
  destruct p as [doc s]. intros [Hnd Hwk]. unfold add_bm25.
  destruct (dict_mem (_get_doc_id doc) d); split.
  - now rewrite keys_dict_add_score.
  - now apply well_keyed_dict_add_score.
  - now apply nodup_keys_dict_set.
  - now apply well_keyed_dict_set.
Qed.

Lemma fuse_ok vw bw V B : dict_ok (fuse vw bw V B).
Proof.
  unfold fuse. apply fold_left_invariant; [apply add_bm25_ok|].
  apply fold_left_invariant; [apply add_vector_ok|].
  split; constructor.
Qed.

Lemma fuse_score vw bw V B key :
  NoDup (ids V) -> NoDup (ids B) ->
  get_score key (fuse vw bw V B)
  = fused_score vw bw (score_in key V) (score_in key B).
Proof.
  intros HV HB. unfold fuse.
  rewrite fold_add_bm25, fold_add_vector by assumption.
  unfold fused_score, get_score. simpl.
  destruct (score_in key V), (score_in key B); reflexivity.
Qed.

(** *** The descending sort *)

Lemma insert_desc_perm x l : Permutation (insert_desc x l) (x :: l).
Proof.
  induction l as [|y l IH]; simpl; [reflexivity|].
  destruct (Qle_bool (snd y) (snd x)); [reflexivity|].
  rewrite IH. apply perm_swap.
Qed.

Lemma sorted_desc_perm l : Permutation (sorted_desc l) l.
Proof.
  induction l as [|x l IH]; simpl; [reflexivity|].
  rewrite insert_desc_perm. now constructor.
Qed.



(** A doc id that a candidate list holds twice (two chunks of one page):
    the vector loop keeps the later score, the BM25 loop adds both. *)
Remark fuse_repeated_id :
  fuse (1 # 2) (1 # 2) [(Examples.docA, 1); (Examples.docA, 1 # 4)] []
  = [("a.pdf_1", (Examples.docA, (1 # 4) * (1 # 2)))]
  /\ fuse (1 # 2) (1 # 2) [] [(Examples.docA, 1); (Examples.docA, 1 # 4)]
     = [("a.pdf_1", (Examples.docA, 1 * (1 # 2) + (1 # 4) * (1 # 2)))].
Proof. split; reflexivity. Qed.

(** *** hybrid_search *)

Lemma ids_combine (docs : list Document) (scores : list Q) :
  length docs = length scores ->
  ids (combine docs scores) = map _get_doc_id docs.
Proof.
  revert scores. induction docs as [|d docs IH]; intros [|s scores] H;
    simpl in *; try discriminate; [reflexivity|].
  unfold ids in *. simpl. f_equal. apply IH. congruence.
Qed.


End FusionTheory.

(** ** The confidence validator *)

Module ValidatorTheory.
Import Validator.
Open Scope string_scope.
Open Scope Q_scope.

Lemma Qle_bool_false (x y : Q) : Qle_bool x y = false <-> y < x.
Proof.
  split; intros H.
  - apply Qnot_le_lt. intros Hle. apply Qle_bool_iff in Hle. congruence.
  - destruct (Qle_bool x y) eqn:E; [|reflexivity].
    apply Qle_bool_iff in E. exfalso. apply (Qlt_irrefl y). lra.
Qed.

Lemma label_low (x : Q) : x < 4 # 10 -> label x = INSUFICIENTE.
Proof.
  intros H. unfold label.
  assert (Qle_bool (8 # 10) x = false) as -> by (apply Qle_bool_false; lra).
  assert (Qle_bool (6 # 10) x = false) as -> by (apply Qle_bool_false; lra).
  assert (Qle_bool (4 # 10) x = false) as -> by (apply Qle_bool_false; lra).
  reflexivity.
Qed.

Lemma label_high (x : Q) : 8 # 10 <= x -> label x = ALTA.
Proof.
  intros H. unfold label. apply Qle_bool_iff in H. now rewrite H.
Qed.

Lemma fmin_spec (a b : Q) :
  (a <= b /\ fmin a b = a) \/ (b < a /\ fmin a b = b).
Proof.
  unfold fmin. destruct (Qle_bool a b) eqn:E.
  - left. split; [now apply Qle_bool_iff | reflexivity].
  - right. split; [now apply Qle_bool_false | reflexivity].
Qed.

Lemma fmin_le_r (a b : Q) : fmin a b <= b.
Proof. destruct (fmin_spec a b) as [[H ->]|[H ->]]; lra. Qed.

(** Capping at 1.0 never changes the label: every threshold is below 1. *)
Lemma label_cap (x : Q) : label (fmin x 1) = label x.
Proof.
  destruct (fmin_spec x 1) as [[_ ->]|[H ->]]; [reflexivity|].
  rewrite (label_high x) by lra. reflexivity.
Qed.

Lemma calculate_confidence_three (c m e : Q) (n : nat) :
  _calculate_confidence
    [("citations", c); ("completeness", m); ("evidence_quality", e)] n
  = label
      (fmin
         (if (n <? 2)%nat then (0 + c + m + e) / 3 * (7 # 10)
          else if (5 <=? n)%nat then (0 + c + m + e) / 3 * (11 # 10)
          else (0 + c + m + e) / 3) 1).
Proof. reflexivity. Qed.

Lemma filter_none {A : Type} (p : A -> bool) (l : list A) :
  (forall x, p x = false) -> filter p l = [].
Proof.
  intros H. induction l as [|x l IH]; simpl; [reflexivity|].
  now rewrite H.
Qed.

Lemma validate_citations_no_evidence (answer : str) :
  _validate_citations answer 0 = 0.
Proof.
  unfold _validate_citations.
  destruct (findall_citations Outside answer) as [|c cs]; [reflexivity|].
  rewrite filter_none; [reflexivity|].
  intros n. destruct n; reflexivity.
Qed.

Lemma validate_completeness_le_1 (answer question : str) :
  _validate_completeness answer question <= 1.
Proof.
  unfold _validate_completeness.
  destruct (length answer <? 100)%nat; [lra | apply fmin_le_r].
Qed.

Lemma validate_response_confidence question answer evidences avg_score :
  confidence (validate_response question answer evidences avg_score)
  = if _is_no_answer answer then INSUFICIENTE
    else if _detect_conflicts answer then BAIXA
    else _calculate_confidence
           (components question answer evidences avg_score)
           (length evidences).
Proof.
  unfold validate_response.
  destruct (_is_no_answer answer); [reflexivity|].
  destruct (_detect_conflicts answer); reflexivity.
Qed.

Lemma validate_response_scores question answer evidences avg_score :
  _is_no_answer answer = false ->
  scores (validate_response question answer evidences avg_score)
  = components question answer evidences avg_score.
Proof.
  intros Hno. unfold validate_response. rewrite Hno.
  destruct (_detect_conflicts answer); reflexivity.
Qed.

(** C7 as stated fails: with no evidence at all, an answer that mentions a
    normative conflict is rated BAIXA, not INSUFICIENTE. *)
Lemma empty_evidence_counterexample :
  confidence
    (validate_response (u "Qual o prazo?")
       (u "Existe conflito normativo entre as normas.") [] 0)
  = BAIXA.
Proof. vm_compute. reflexivity. Qed.

(** C7, amended: with an empty evidence list the confidence is
    INSUFICIENTE, except for an answer that matches a conflict marker and
    no no-answer marker, which the conflict short-circuit rates BAIXA. *)
Theorem empty_evidence_confidence (question answer : str) (avg_score : Q) :
  confidence (validate_response question answer [] avg_score)
  = if negb (_is_no_answer answer) && _detect_conflicts answer
    then BAIXA else INSUFICIENTE.
Proof.
  rewrite validate_response_confidence.
  destruct (_is_no_answer answer); [reflexivity|].
  destruct (_detect_conflicts answer); [reflexivity|].
  unfold components. simpl length.
  rewrite validate_citations_no_evidence, calculate_confidence_three.
  change (0 <? 2)%nat with true. cbv iota.
  pose proof (validate_completeness_le_1 answer question) as Hm.
  set (m := _validate_completeness answer question) in *. clearbody m.
  simpl _validate_evidence_quality.
  rewrite label_cap. apply label_low.
  assert ((0 + 0 + m + 0) / 3 * (7 # 10) == m * (7 # 30)) as -> by field.
  lra.
Qed.

End ValidatorTheory.

(** ** The aggregation on doubles *)

Module AggregationTheory.
Import SpecFloat Binary64 Validator64.
Open Scope string_scope.
















(** The three scores 1.0, 0.76 and 0.64 with two evidences: the mean as
    the doubles give it is 0.7999999999999999, one step below the
    threshold 0.8, and the label is MEDIA. *)
Remark mean_next_to_threshold :
  adjusted
    (fsum [decimal 10 10; decimal 76 100; decimal 64 100]) 2
  = S754_finite false 7205759403792793 (-53)
  /\ decimal 8 10 = S754_finite false 7205759403792794 (-53)
  /\ _calculate_confidence
       (stored (decimal 10 10) (decimal 76 100) (decimal 64 100)) 2
     = Validator.MEDIA.
Proof. repeat split; vm_compute; reflexivity. Qed.



End AggregationTheory.

(** ** Further properties of the governance filters *)

Module FilterFacts.
Import Retrieval.
Open Scope string_scope.

(** X1: a document is in the output of the pipeline exactly when it is in
    the input and passes each configured test: its status (default
    "Vigente") is the one asked for, its precedence (default 99) is within
    the ceiling if there is one, its validity start (default "") is not
    before a non-empty start date, its validity end (default "9999-12-31")
    is not after a non-empty end date, and its type (default "") is in a
    non-empty list of source types. *)
Theorem apply_all_filters_membership
  (D : list Document) (status : string) (min_precedence : option Z)
  (start_date end_date : option string) (source_types : option (list string))
  (doc : Document) :
  In doc (apply_all_filters D status min_precedence start_date end_date
            source_types)
  <->
  In doc D
  /\ get (md_status (metadata doc)) "Vigente" = status
  /\ (forall m, min_precedence = Some m ->
        (get (md_precedencia (metadata doc)) 99 <= m)%Z)
  /\ (forall sd, start_date = Some sd -> sd <> "" ->
        (sd <=? get (md_vigencia_inicio (metadata doc)) "") = true)
  /\ (forall ed, end_date = Some ed -> ed <> "" ->
        (get (md_vigencia_fim (metadata doc)) "9999-12-31" <=? ed) = true)
  /\ (forall types, source_types = Some types -> types <> [] ->
        In (get (md_tipo (metadata doc)) "") types).
Proof.
  rewrite FilterTheory.apply_all_filters_filter, filter_In.
  unfold keeps. rewrite !andb_true_iff.
  unfold status_ok, precedence_ok, start_ok, end_ok, type_ok.
  rewrite String.eqb_eq.
  assert (forall types,
             existsb (String.eqb (get (md_tipo (metadata doc)) "")) types = true
             <-> In (get (md_tipo (metadata doc)) "") types) as Hty.
  { intros types. rewrite existsb_exists. split.
    - intros [x [Hin Heq]]. apply String.eqb_eq in Heq. now subst.
    - intros Hin. eexists. split; [exact Hin | apply String.eqb_refl]. }
  split.
  - intros [Hin [[[Hs Hp] [Hsd Hed]] Hst]].
    split; [exact Hin|]. split; [exact Hs|]. repeat split.
    + intros m ->. now apply Z.leb_le.
    + intros sd -> Hne. destruct sd; [congruence | exact Hsd].
    + intros ed -> Hne. destruct ed; [congruence | exact Hed].
    + intros types -> Hne. destruct types; [congruence | now apply Hty].
  - intros [Hin [Hs [Hp [Hsd [Hed Hst]]]]].
    split; [exact Hin|]. repeat split.
    + exact Hs.
    + destruct min_precedence as [m|]; [|reflexivity].
      apply Z.leb_le. now apply Hp.
    + destruct start_date as [[|c sd]|]; simpl; try reflexivity.
      apply Hsd; [reflexivity | discriminate].
    + destruct end_date as [[|c ed]|]; simpl; try reflexivity.
      apply Hed; [reflexivity | discriminate].
    + destruct source_types as [[|t ts]|]; try reflexivity.
      apply Hty. apply Hst; [reflexivity | discriminate].
Qed.

(** X2: a document without a validity start never passes a non-empty start
    date, and a document without a validity end counts as ending on
    "9999-12-31": a non-empty end date keeps it exactly when that date is
    not before "9999-12-31". *)
Theorem missing_validity_dates (docs : list Document) (doc : Document) :
  (md_vigencia_inicio (metadata doc) = None ->
   forall start_date end_date,
     start_date <> "" ->
     ~ In doc (filter_by_date_range docs (Some start_date) end_date))
  /\
  (md_vigencia_fim (metadata doc) = None ->
   forall end_date,
     end_date <> "" ->
     (In doc (filter_by_date_range docs None (Some end_date))
      <-> In doc docs /\ ("9999-12-31" <=? end_date) = true)).
Proof.
  split; intros Hnone.
  - intros sd ed Hne Hin.
    rewrite FilterTheory.filter_by_date_range_filter in Hin.
    apply filter_In in Hin. destruct Hin as [_ Hin].
    apply andb_true_iff in Hin. destruct Hin as [Hin _].
    destruct sd as [|c sd]; [congruence|]. simpl in Hin.
    unfold start_ok in Hin. rewrite Hnone in Hin. simpl in Hin.
    discriminate Hin.
  - intros ed Hne.
    rewrite FilterTheory.filter_by_date_range_filter, filter_In.
    destruct ed as [|c ed]; [congruence|]. simpl str_truthy. cbv iota.
    unfold end_ok. rewrite Hnone. simpl get. reflexivity.
Qed.

(** The theorem on the example document C, which has neither date. *)
Lemma missing_validity_dates_witness :
  ~ In Examples.docC
      (filter_by_date_range [Examples.docC] (Some "2020-01-01") None)
  /\ ~ In Examples.docC
         (filter_by_date_range [Examples.docC] None (Some "2030-12-31")).
Proof.
  destruct (missing_validity_dates [Examples.docC] Examples.docC)
    as [Hstart Hend].
  split.
  - apply (Hstart eq_refl "2020-01-01" None). discriminate.
  - intros Hin. apply (Hend eq_refl "2030-12-31") in Hin; [|discriminate].
    destruct Hin as [_ Hle]. vm_compute in Hle. discriminate Hle.
Defined.

End FilterFacts.

(** ** Further properties of the orchestrator *)

Module RetrieveFacts.
Import Retrieval.
Open Scope string_scope.
Open Scope nat_scope.

(** X3: before [initialize_bm25] has run, [bm25_search] raises
    [RuntimeError], and so does [retrieve] with BM25_ONLY, whatever the
    query, k and filters. *)
Theorem bm25_only_needs_index
  (self : HybridRetriever) (query : string) (k : option nat)
  (apply_filters : bool) (filter_kwargs : option FilterKwargs) :
  bm25 self = None ->
  (forall n, bm25_search self query n = Err RuntimeError)
  /\ retrieve self query k BM25_ONLY apply_filters filter_kwargs
     = Err RuntimeError.
Proof.
  intros Hnone.
  assert (forall n, bm25_search self query n = Err RuntimeError) as Hsearch.
  { intros n. unfold bm25_search. now rewrite Hnone. }
  split; [exact Hsearch|].
  unfold retrieve. simpl run_strategy. now rewrite Hsearch.
Qed.

(** X4: before [initialize_bm25] has run, [hybrid_search] does not fail: it
    returns what [vector_search] returns for the same k (not the doubled
    k), and [retrieve] with HYBRID returns the documents and scores that
    VECTOR_ONLY returns. *)
Theorem hybrid_degrades_to_vector
  (self : HybridRetriever) (query : string) (k : option nat)
  (apply_filters : bool) (filter_kwargs : option FilterKwargs) :
  bm25 self = None ->
  (forall n vw bw,
     hybrid_search self query n vw bw = Ok (vector_search self query n))
  /\ exists r_hybrid r_vector,
       retrieve self query k HYBRID apply_filters filter_kwargs = Ok r_hybrid
       /\ retrieve self query k VECTOR_ONLY apply_filters filter_kwargs
          = Ok r_vector
       /\ documents r_hybrid = documents r_vector
       /\ scores r_hybrid = scores r_vector.
Proof.
  intros Hnone.
  assert (forall n vw bw,
             hybrid_search self query n vw bw
             = Ok (vector_search self query n)) as Hh.
  { intros n vw bw. unfold hybrid_search. now rewrite Hnone. }
  split; [exact Hh|].
  unfold retrieve. simpl run_strategy. rewrite Hh.
  destruct (vector_search self query (nat_or k (cfg_default_k self)))
    as [docs0 scores0]. simpl.
  destruct (govern apply_filters filter_kwargs docs0 scores0) as [d s].
  eexists. eexists. repeat split.
Qed.

(** A retriever like the example corpus whose BM25 index was never built. *)
Lemma corpus_without_index :
  bm25 {| vectorstore := vectorstore Examples.corpus;
          bm25 := None;
          bm25_documents := [];
          reranker := None;
          cfg_vector_weight := 3 # 4;
          cfg_bm25_weight := 1 # 4;
          cfg_default_k := 5 |} = None.
Proof. reflexivity. Qed.

Lemma bm25_only_needs_index_witness :
  exists self,
    retrieve self "q" (Some 2) BM25_ONLY true None = Err RuntimeError.
Proof.
  eexists.
  exact (proj2 (bm25_only_needs_index _ "q" (Some 2) true None
                  corpus_without_index)).
Defined.

Lemma hybrid_degrades_to_vector_witness :
  exists self,
    hybrid_search self "q" 2 None None = Ok (vector_search self "q" 2).
Proof.
  eexists.
  exact (proj1 (hybrid_degrades_to_vector _ "q" (Some 2) true None
                  corpus_without_index) 2 None None).
Defined.

(** X5: every result of [retrieve] has as many scores as documents, reports
    that number as [total_results], and reports as [k] the requested k, or
    the configured default when the request gives none or zero. *)
Theorem retrieve_result_shape
  (self : HybridRetriever) (query : string) (k : option nat)
  (strategy : RetrievalStrategy) (apply_filters : bool)
  (filter_kwargs : option FilterKwargs) (r : RetrievalResult) :
  retrieve self query k strategy apply_filters filter_kwargs = Ok r ->
  length (documents r) = length (scores r)
  /\ meta_total_results r = length (documents r)
  /\ meta_k r = match k with
                | Some (S n) => S n
                | _ => cfg_default_k self
                end
  /\ Retrieval.strategy r = strategy
  /\ meta_filters_applied r = apply_filters.
Proof.
  intros H. split.
  - destruct (RetrieveTheory.retrieve_stages _ _ _ _ _ _ _ H)
      as [docs0 [scores0 [Hrun Hgov]]].
    apply RetrieveTheory.run_strategy_lengths in Hrun. symmetry in Hgov.
    now destruct (RetrieveTheory.govern_lengths _ _ _ _ _ _ Hrun Hgov).
  - unfold retrieve in H.
    destruct (run_strategy _ _ _ _) as [[docs0 scores0]|]; simpl in H;
      [|discriminate].
    destruct (govern _ _ _ _) as [d s]. inversion H; subst; simpl.
    destruct k as [[|n]|]; repeat split.
Qed.

Lemma retrieve_result_shape_witness :
  exists r,
    retrieve Examples.corpus "q" None HYBRID true None = Ok r
    /\ length (documents r) = length (scores r)
    /\ meta_k r = 5.
Proof.
  destruct (retrieve Examples.corpus "q" None HYBRID true None) as [r|] eqn:H;
    [|vm_compute in H; discriminate H].
  exists r. split; [reflexivity|].
  destruct (retrieve_result_shape _ _ _ _ _ _ _ H) as [Hlen [_ [Hk _]]].
  split; [exact Hlen | exact Hk].
Defined.

(** X6: when the vector store returns at most k results for a request of k,
    every result of [retrieve] has at most k documents (k as reported in
    the result), except with HYBRID_RERANK and no reranker configured. *)
Theorem retrieve_honours_k
  (self : HybridRetriever) (query : string) (k : option nat)
  (strategy : RetrievalStrategy) (apply_filters : bool)
  (filter_kwargs : option FilterKwargs) (r : RetrievalResult) :
  (forall q n, length (vectorstore self q n) <= n) ->
  strategy <> HYBRID_RERANK \/ reranker self <> None ->
  retrieve self query k strategy apply_filters filter_kwargs = Ok r ->
  length (documents r) <= meta_k r.
Proof.
  intros Hstore Hmode H.
  assert (meta_k r = nat_or k (cfg_default_k self)) as ->.
  { unfold retrieve in H.
    destruct (run_strategy _ _ _ _) as [[docs0 scores0]|]; simpl in H;
      [|discriminate].
    destruct (govern _ _ _ _) as [d s]. now inversion H. }
  eapply RetrieveTheory.retrieve_at_most_k; eassumption.
Qed.

Lemma corpus_store_honours_k :
  forall q n, length (vectorstore Examples.corpus q n) <= n.
Proof. intros q n. simpl. apply firstn_le_length. Qed.

Lemma retrieve_honours_k_witness :
  exists r,
    retrieve Examples.corpus "q" (Some 1) HYBRID true None = Ok r
    /\ length (documents r) <= 1.
Proof.
  destruct (retrieve Examples.corpus "q" (Some 1) HYBRID true None)
    as [r|] eqn:H; [|vm_compute in H; discriminate H].
  exists r. split; [reflexivity|].
  assert (meta_k r = 1) as Hk by (vm_compute in H; now inversion H).
  rewrite <- Hk.
  apply (retrieve_honours_k Examples.corpus "q" (Some 1) HYBRID true None r
           corpus_store_honours_k).
  - left. discriminate.
  - exact H.
Defined.

(** X7: when [retrieve] applies the filters (apply_filters set and a
    non-empty filter dict), the documents it returns are the documents of
    the strategy's result that pass the criteria, in their order, and the
    scores it returns are the first scores of the strategy's result, as many
    as there are documents left; in particular no returned document has a
    status (default "Vigente") other than the one asked for. *)
Theorem retrieve_applies_filters
  (self : HybridRetriever) (query : string) (k : option nat)
  (strategy : RetrievalStrategy) (kw : FilterKwargs) (r : RetrievalResult) :
  kwargs_truthy kw = true ->
  retrieve self query k strategy true (Some kw) = Ok r ->
  exists docs0 scores0,
    run_strategy self query (nat_or k (cfg_default_k self)) strategy
    = Ok (docs0, scores0)
    /\ documents r
       = filter (keeps (get (kw_status kw) "Vigente")
                   (passed (kw_min_precedence kw)) (passed (kw_start_date kw))
                   (passed (kw_end_date kw)) (passed (kw_source_types kw)))
           docs0
    /\ scores r = firstn (length (documents r)) scores0
    /\ Forall (fun doc => get (md_status (metadata doc)) "Vigente"
                          = get (kw_status kw) "Vigente") (documents r).
Proof.
  intros Htruthy H.
  destruct (RetrieveTheory.retrieve_stages _ _ _ _ _ _ _ H)
    as [docs0 [scores0 [Hrun Hgov]]].
  exists docs0, scores0. split; [exact Hrun|].
  rewrite RetrieveTheory.govern_truncates_scores in Hgov by exact Htruthy.
  inversion Hgov as [[Hd Hs]]. rewrite Hd.
  unfold apply_kwargs. rewrite FilterTheory.apply_all_filters_filter.
  split; [reflexivity|]. split; [reflexivity|].
  apply Forall_forall. intros doc Hin. apply filter_In in Hin.
  destruct Hin as [_ Hkeep]. unfold keeps in Hkeep.
  rewrite !andb_true_iff in Hkeep. destruct Hkeep as [[[Hst _] _] _].
  now apply String.eqb_eq in Hst.
Qed.

(** The theorem at the filter dict [{"min_precedence": None}], which is
    not empty: the default status filter applies. *)
Lemma retrieve_applies_filters_witness :
  exists r,
    retrieve Examples.corpus "q" (Some 2) VECTOR_ONLY true
      (Some Examples.ceiling_unset) = Ok r
    /\ documents r = [Examples.docC]
    /\ Forall (fun doc => get (md_status (metadata doc)) "Vigente" = "Vigente")
         (documents r).
Proof.
  destruct (retrieve Examples.corpus "q" (Some 2) VECTOR_ONLY true
              (Some Examples.ceiling_unset)) as [r|] eqn:H;
    [|vm_compute in H; discriminate H].
  exists r. split; [reflexivity|].
  destruct (retrieve_applies_filters Examples.corpus "q" (Some 2) VECTOR_ONLY
              Examples.ceiling_unset r eq_refl H)
    as [docs0 [scores0 [Hrun [Hdocs [_ Hall]]]]].
  split; [|exact Hall].
  vm_compute in Hrun. inversion Hrun; subst docs0 scores0.
  rewrite Hdocs. reflexivity.
Defined.

End RetrieveFacts.

(** ** Ranking: argsort, BM25 search and reranking *)

Module RankingFacts.
Import Retrieval.
Open Scope string_scope.
Open Scope nat_scope.

Lemma insert_asc_perm x l : Permutation (insert_asc x l) (x :: l).
Proof.
  induction l as [|y l IH]; simpl; [reflexivity|].
  destruct (Qle_bool (snd x) (snd y)); [reflexivity|].
  rewrite IH. apply perm_swap.
Qed.

Lemma insert_asc_sorted x l :
  StronglySorted (fun a b : nat * Q => (snd a <= snd b)%Q) l ->
  StronglySorted (fun a b : nat * Q => (snd a <= snd b)%Q) (insert_asc x l).
Proof.
  induction l as [|y l IH]; simpl; intros Hs.
  - repeat constructor.
  - apply StronglySorted_inv in Hs. destruct Hs as [Hs Hall].
    destruct (Qle_bool (snd x) (snd y)) eqn:E.
    + apply Qle_bool_iff in E. constructor; [now constructor|].
      constructor; [exact E|].
      eapply Forall_impl; [|exact Hall].
      intros z Hz. simpl in *. now apply Qle_trans with (snd y).
    + assert (snd y < snd x)%Q as Hlt
        by (apply Qnot_le_lt; intros H; apply Qle_bool_iff in H; congruence).
      constructor; [now apply IH|].
      eapply Permutation_Forall; [symmetry; apply insert_asc_perm|].
      constructor; [|exact Hall].
      now apply Qlt_le_weak.
Qed.

Lemma ranked_pairs_perm scores :
  Permutation (ranked_pairs scores) (combine (seq 0 (length scores)) scores).
Proof.
  unfold ranked_pairs.
  induction (combine (seq 0 (length scores)) scores) as [|x l IH]; simpl;
    [reflexivity|].
  rewrite insert_asc_perm. now constructor.
Qed.

Lemma ranked_pairs_sorted scores :
  StronglySorted (fun a b : nat * Q => (snd a <= snd b)%Q)
    (ranked_pairs scores).
Proof.
  unfold ranked_pairs.
  induction (combine (seq 0 (length scores)) scores) as [|x l IH]; simpl;
    [constructor | now apply insert_asc_sorted].
Qed.

Lemma in_combine_seq {A : Type} (l : list A) (a i : nat) (x : A) :
  In (i, x) (combine (seq a (length l)) l)
  <-> a <= i /\ nth_error l (i - a) = Some x.
Proof.
  revert a. induction l as [|y l IH]; intros a; simpl.
  - split; [contradiction|]. intros [_ H]. now destruct (i - a).
  - rewrite IH. split.
    + intros [Heq|[Hle Hnth]].
      * inversion Heq; subst. rewrite Nat.sub_diag. split; [lia|reflexivity].
      * split; [lia|]. replace (i - a) with (S (i - S a)) by lia. exact Hnth.
    + intros [Hle Hnth]. destruct (Nat.eq_dec a i) as [->|Hne].
      * rewrite Nat.sub_diag in Hnth. simpl in Hnth. left. congruence.
      * right. split; [lia|].
        replace (i - a) with (S (i - S a)) in Hnth by lia. exact Hnth.
Qed.

Lemma ranked_pairs_lookup scores i x :
  In (i, x) (ranked_pairs scores) <-> at_index scores i x.
Proof.
  unfold at_index. split; intros H.
  - apply (Permutation_in _ (ranked_pairs_perm scores)) in H.
    apply in_combine_seq in H. destruct H as [_ H].
    now rewrite Nat.sub_0_r in H.
  - apply (Permutation_in _ (Permutation_sym (ranked_pairs_perm scores))).
    apply in_combine_seq. rewrite Nat.sub_0_r. split; [lia | exact H].
Qed.

Lemma ranked_pairs_indices scores :
  Permutation (argsort scores) (seq 0 (length scores)).
Proof.
  unfold argsort. fold (ranked_pairs scores).
  rewrite (Permutation_map fst (ranked_pairs_perm scores)).
  assert (forall (l : list Q) a, map fst (combine (seq a (length l)) l)
                                 = seq a (length l)) as H.
  { induction l as [|y l IH]; intros a; simpl; [reflexivity|].
    now rewrite IH. }
  now rewrite H.
Qed.

(** *** select *)

Lemma select_Forall2 {A : Type} (xs : list A) (idx : list nat) (ys : list A) :
  select xs idx = Ok ys <-> Forall2 (at_index xs) idx ys.
Proof.
  revert ys. induction idx as [|i idx IH]; intros ys; simpl.
  - split; intros H; [inversion H; constructor | now inversion H].
  - unfold at_index at 1. destruct (nth_error xs i) as [x|] eqn:Hx.
    + destruct (select xs idx) as [rest|] eqn:Hr; simpl.
      * split; intros H.
        -- inversion H; subst. constructor; [exact Hx | now apply IH].
        -- inversion H as [|? y ? ys' Hy Hrest]; subst.
           apply IH in Hrest. unfold at_index in Hy. congruence.
      * split; intros H; [discriminate|].
        inversion H as [|? y ? ys' Hy Hrest]; subst.
        apply IH in Hrest. discriminate.
    + split; intros H; [discriminate|].
      inversion H as [|? y ? ys' Hy Hrest]; subst.
      unfold at_index in Hy. congruence.
Qed.

Lemma select_total {A : Type} (xs : list A) (idx : list nat) :
  Forall (fun i => i < length xs) idx -> exists ys, select xs idx = Ok ys.
Proof.
  induction idx as [|i idx IH]; intros H; simpl.
  - now exists [].
  - inversion H as [|? ? Hi Hrest]; subst.
    destruct (IH Hrest) as [rest ->].
    destruct (nth_error xs i) as [x|] eqn:Hx.
    + simpl. now eexists.
    + apply nth_error_None in Hx. lia.
Qed.

Lemma select_pairs (scores : list Q) (P : list (nat * Q)) :
  (forall p, In p P -> In p (ranked_pairs scores)) ->
  select scores (map fst P) = Ok (map snd P).
Proof.
  intros H. apply select_Forall2.
  induction P as [|[i x] P IH]; simpl; constructor.
  - apply ranked_pairs_lookup. apply H. now left.
  - apply IH. intros p Hp. apply H. now right.
Qed.

(** *** Sorted lists *)

Lemma StronglySorted_app {A : Type} (R : A -> A -> Prop) (l1 l2 : list A) :
  StronglySorted R l1 -> StronglySorted R l2 ->
  (forall x y, In x l1 -> In y l2 -> R x y) ->
  StronglySorted R (l1 ++ l2).
Proof.
  induction l1 as [|a l1 IH]; simpl; intros H1 H2 H12; [exact H2|].
  apply StronglySorted_inv in H1. destruct H1 as [H1 Ha].
  constructor.
  - apply IH; auto.
  - apply Forall_app. split; [exact Ha|].
    apply Forall_forall. intros y Hy. apply H12; [now left | exact Hy].
Qed.

Lemma StronglySorted_rev {A : Type} (R : A -> A -> Prop) (l : list A) :
  StronglySorted R l -> StronglySorted (fun x y => R y x) (rev l).
Proof.
  induction l as [|a l IH]; simpl; intros H; [constructor|].
  apply StronglySorted_inv in H. destruct H as [H Ha].
  apply StronglySorted_app; [now apply IH | repeat constructor |].
  intros x y Hx [<-|[]]. apply in_rev in Hx.
  rewrite Forall_forall in Ha. now apply Ha.
Qed.

Lemma in_firstn {A : Type} (k : nat) (l : list A) (x : A) :
  In x (firstn k l) -> In x l.
Proof.
  intros H. rewrite <- (firstn_skipn k l). apply in_or_app. now left.
Qed.

Lemma StronglySorted_split {A : Type} (R : A -> A -> Prop) (k : nat)
  (l : list A) :
  StronglySorted R l ->
  StronglySorted R (firstn k l)
  /\ (forall x y, In x (firstn k l) -> In y (skipn k l) -> R x y).
Proof.
  revert k. induction l as [|a l IH]; intros k H.
  - rewrite firstn_nil, skipn_nil. split; [constructor | intros x y []].
  - apply StronglySorted_inv in H. destruct H as [H Ha].
    destruct k as [|k]; simpl.
    + split; [constructor | intros x y []].
    + destruct (IH k H) as [Hs Hx]. split.
      * constructor; [exact Hs|].
        rewrite Forall_forall in *. intros x Hin. apply Ha.
        now apply in_firstn in Hin.
      * intros x y [<-|Hin] Hy.
        -- rewrite Forall_forall in Ha. apply Ha.
           rewrite <- (firstn_skipn k l). apply in_or_app. now right.
        -- now apply Hx.
Qed.

Lemma StronglySorted_map {A B : Type} (R : B -> B -> Prop) (f : A -> B)
  (l : list A) :
  StronglySorted (fun x y => R (f x) (f y)) l -> StronglySorted R (map f l).
Proof.
  induction 1 as [|a l Hs IH Ha]; simpl; constructor; [exact IH|].
  apply Forall_map. exact Ha.
Qed.

Lemma NoDup_firstn {A : Type} (k : nat) (l : list A) :
  NoDup l -> NoDup (firstn k l).
Proof.
  intros H. rewrite <- (firstn_skipn k l) in H.
  now apply NoDup_app_remove_r in H.
Qed.

(** *** Taking the best k *)

(** What [firstn k (rev (argsort scores))] selects from a list [items] that
    has one item per score. *)
Lemma top_selection {A : Type} (items : list A) (scores : list Q) (k : nat) :
  length scores = length items ->
  exists (xs : list A) (ss : list Q),
    select items (firstn k (rev (argsort scores))) = Ok xs
    /\ select scores (firstn k (rev (argsort scores))) = Ok ss
    /\ length (firstn k (rev (argsort scores))) = Nat.min k (length items)
    /\ NoDup (firstn k (rev (argsort scores)))
    /\ StronglySorted (fun a b => (b <= a)%Q) ss
    /\ (forall j s,
          at_index scores j s ->
          ~ In j (firstn k (rev (argsort scores))) ->
          Forall (fun t => (s <= t)%Q) ss).
Proof.
  intros Hlen.
  set (P := rev (ranked_pairs scores)).
  assert (firstn k (rev (argsort scores)) = map fst (firstn k P)) as Hidx.
  { unfold argsort. fold (ranked_pairs scores).
    now rewrite <- map_rev, firstn_map. }
  assert (forall p, In p (firstn k P) -> In p (ranked_pairs scores)) as Hsub.
  { intros p Hp. apply in_firstn in Hp. now apply in_rev. }
  assert (StronglySorted (fun a b : nat * Q => (snd b <= snd a)%Q) P) as Hsorted.
  { apply (StronglySorted_rev _ _ (ranked_pairs_sorted scores)). }
  destruct (StronglySorted_split _ k P Hsorted) as [Hfirst Hcut].
  pose proof (ranked_pairs_indices scores) as Hperm.
  assert (Forall (fun i => i < length items)
            (firstn k (rev (argsort scores)))) as Hrange.
  { apply Forall_forall. intros i Hi. apply in_firstn in Hi.
    apply in_rev in Hi. apply (Permutation_in _ Hperm) in Hi.
    apply in_seq in Hi. lia. }
  destruct (select_total items _ Hrange) as [xs Hxs].
  exists xs, (map snd (firstn k P)).
  split; [exact Hxs|]. split.
  { rewrite Hidx. now apply select_pairs. }
  split.
  { rewrite length_firstn, length_rev, (Permutation_length Hperm), length_seq.
    now rewrite Hlen. }
  split.
  { apply NoDup_firstn. apply NoDup_rev.
    apply (Permutation_NoDup (Permutation_sym Hperm)). apply seq_NoDup. }
  split.
  { now apply StronglySorted_map. }
  intros j s Hj Hnot.
  apply ranked_pairs_lookup in Hj. apply in_rev in Hj. fold P in Hj.
  rewrite <- (firstn_skipn k P) in Hj. apply in_app_or in Hj.
  destruct Hj as [Hj|Hj].
  - exfalso. apply Hnot. rewrite Hidx. apply in_map_iff.
    now exists (j, s).
  - apply Forall_map. apply Forall_forall. intros x Hx.
    apply (Hcut x (j, s) Hx Hj).
Qed.

(** X8: when the BM25 index is built and scores every document of its
    corpus, [bm25_search] does not fail and returns the k best: min(k, corpus
    size) documents, each with its own score, taken at distinct positions of
    the corpus, in descending order of score, every document left out
    scoring no more than every document returned. *)
Theorem bm25_search_top_k
  (self : HybridRetriever) (query : string) (k : nat)
  (get_scores : string -> list Q) :
  bm25 self = Some get_scores ->
  length (get_scores query) = length (bm25_documents self) ->
  exists (docs : list Document) (scores : list Q) (positions : list nat),
    bm25_search self query k = Ok (docs, scores)
    /\ length docs = Nat.min k (length (bm25_documents self))
    /\ NoDup positions
    /\ Forall2 (at_index (bm25_documents self)) positions docs
    /\ Forall2 (at_index (get_scores query)) positions scores
    /\ StronglySorted (fun a b => (b <= a)%Q) scores
    /\ (forall j s,
          at_index (get_scores query) j s ->
          ~ In j positions ->
          Forall (fun t => (s <= t)%Q) scores).
Proof.
  intros Hbm Hlen.
  destruct (top_selection (bm25_documents self) (get_scores query) k Hlen)
    as [xs [ss [Hxs [Hss [Hn [Hnd [Hsorted Htop]]]]]]].
  exists xs, ss, (firstn k (rev (argsort (get_scores query)))).
  split.
  { unfold bm25_search. rewrite Hbm. cbv zeta. now rewrite Hxs, Hss. }
  split.
  { rewrite <- Hn. now apply RetrieveTheory.select_length in Hxs. }
  split; [exact Hnd|].
  split; [now apply select_Forall2|].
  split; [now apply select_Forall2|].
  split; [exact Hsorted | exact Htop].
Qed.

Lemma bm25_search_top_k_witness :
  exists (docs : list Document) (scores : list Q),
    bm25_search Examples.corpus "q" 2 = Ok (docs, scores)
    /\ length docs = 2
    /\ StronglySorted (fun a b => (b <= a)%Q) scores.
Proof.
  destruct (bm25_search_top_k Examples.corpus "q" 2 (fun _ => [0; 1; 4; 3]%Q)
              eq_refl eq_refl)
    as [docs [scores [positions [Hres [Hlen [_ [_ [_ [Hsorted _]]]]]]]]].
  exists docs, scores. split; [exact Hres|]. split; [exact Hlen | exact Hsorted].
Defined.

(** X9: with a reranker that returns one score per pair, [rerank] does not
    fail; it returns the documents in descending order of the model's
    score, each with its own score, which it also writes to the document's
    [rerank_score]; it returns min(top_k, n) of the n documents for a
    positive top_k and all of them otherwise, and leaves out only documents
    that score no more than every document returned. *)
Theorem rerank_orders_by_model
  (self : HybridRetriever) (query : string) (documents : list Document)
  (top_k : option nat) (predict : list (string * string) -> list Q) :
  reranker self = Some predict ->
  length (predict (map (fun doc => (query, page_content doc)) documents))
  = length documents ->
  exists (reranked selected : list Document) (scores : list Q)
         (positions : list nat),
    rerank self query documents top_k = Ok (reranked, scores)
    /\ reranked = map set_rerank_score (combine selected scores)
    /\ Forall2 (fun doc s => md_rerank_score (metadata doc) = Some s)
         reranked scores
    /\ length reranked
       = match top_k with
         | Some (S n) => Nat.min (S n) (length documents)
         | _ => length documents
         end
    /\ NoDup positions
    /\ Forall2 (at_index documents) positions selected
    /\ Forall2
         (at_index
            (predict (map (fun doc => (query, page_content doc)) documents)))
         positions scores
    /\ StronglySorted (fun a b => (b <= a)%Q) scores
    /\ (forall j s,
          at_index
            (predict (map (fun doc => (query, page_content doc)) documents))
            j s ->
          ~ In j positions ->
          Forall (fun t => (s <= t)%Q) scores).
Proof.
  intros Hre Hlen.
  set (predicted :=
         predict (map (fun doc => (query, page_content doc)) documents)) in *.
  set (k := match top_k with
            | Some (S n) => S n
            | _ => length documents
            end).
  destruct (top_selection documents predicted k Hlen)
    as [xs [ss [Hxs [Hss [Hn [Hnd [Hsorted Htop]]]]]]].
  assert (length xs = length ss) as Hxy.
  { apply RetrieveTheory.select_length in Hxs, Hss. congruence. }
  assert (match top_k with
          | Some (S n) => firstn (S n) (rev (argsort predicted))
          | _ => rev (argsort predicted)
          end = firstn k (rev (argsort predicted))) as Hcut.
  { assert (firstn (length documents) (rev (argsort predicted))
            = rev (argsort predicted)) as Hall.
    { apply firstn_all2.
      rewrite length_rev, (Permutation_length (ranked_pairs_indices predicted)),
        length_seq. lia. }
    unfold k. destruct top_k as [[|n]|]; now rewrite ?Hall. }
  exists (map set_rerank_score (combine xs ss)), xs, ss,
         (firstn k (rev (argsort predicted))).
  split.
  { unfold rerank. rewrite Hre.
    destruct documents as [|d0 docs].
    - apply RetrieveTheory.select_length in Hxs, Hss.
      rewrite Hn in Hxs, Hss. rewrite Nat.min_0_r in Hxs, Hss.
      destruct xs, ss; try discriminate. reflexivity.
    - cbv zeta. fold predicted. rewrite Hcut, Hxs, Hss. reflexivity. }
  split; [reflexivity|]. split.
  { clear - Hxy. revert ss Hxy.
    induction xs as [|x xs IH]; intros [|s ss] H; simpl in *;
      try discriminate; constructor; [reflexivity|].
    apply IH. congruence. }
  split.
  { rewrite length_map, length_combine, <- Hxy, Nat.min_id.
    apply RetrieveTheory.select_length in Hxs. rewrite Hxs, Hn.
    unfold k. destruct top_k as [[|n]|]; try apply Nat.min_id; reflexivity. }
  split; [exact Hnd|].
  split; [now apply select_Forall2|].
  split; [now apply select_Forall2|].
  split; [exact Hsorted | exact Htop].
Qed.

Lemma rerank_orders_by_model_witness :
  exists (reranked : list Document) (scores : list Q),
    rerank Examples.corpus_reranked "q"
      [Examples.docA; Examples.docC; Examples.docB] (Some 2)
    = Ok (reranked, scores)
    /\ length reranked = 2
    /\ StronglySorted (fun a b => (b <= a)%Q) scores.
Proof.
  destruct (rerank_orders_by_model Examples.corpus_reranked "q"
              [Examples.docA; Examples.docC; Examples.docB] (Some 2)
              Examples.by_initial eq_refl eq_refl)
    as [reranked [selected [scores [positions
         [Hres [_ [_ [Hlen [_ [_ [_ [Hsorted _]]]]]]]]]]]].
  exists reranked, scores.
  split; [exact Hres|]. split; [exact Hlen | exact Hsorted].
Defined.

End RankingFacts.

(** ** Further properties of score normalisation *)

Module NormalizeFacts.
Import Retrieval.
Import NormalizeTheory.
Open Scope Q_scope.

Lemma normalize_range (scores : list Q) :
  Forall (fun x => 0 <= x /\ x <= 1) (_normalize_scores scores).
Proof.
  destruct scores as [|s0 rest]; [constructor|].
  destruct (py_min_spec rest s0) as [_ Hmin].
  destruct (py_max_spec rest s0) as [_ Hmax].
  rewrite Forall_forall in Hmin, Hmax.
  destruct (normalize_cases s0 rest) as [[_ ->]|[Hlt ->]];
    apply Forall_forall; intros x Hx.
  - apply repeat_spec in Hx. subst x. split; lra.
  - apply in_map_iff in Hx. destruct Hx as [s [<- Hs]].
    apply scale_range; [exact Hlt | now apply Hmin | now apply Hmax].
Qed.

Lemma Forall2_map_Qeq (f : Q -> Q) (l : list Q) :
  (forall x, In x l -> f x == x) -> Forall2 Qeq (map f l) l.
Proof.
  induction l as [|x l IH]; intros H; simpl; constructor.
  - apply H. now left.
  - apply IH. intros y Hy. apply H. now right.
Qed.

Lemma Forall2_Qeq_refl (l : list Q) : Forall2 Qeq l l.
Proof. induction l; constructor; [reflexivity | assumption]. Qed.

(** X10: normalising twice changes nothing: the scores that
    [_normalize_scores] returns are their own normalisation (as numbers). *)
Theorem normalize_idempotent (scores : list Q) :
  Forall2 Qeq (_normalize_scores (_normalize_scores scores))
    (_normalize_scores scores).
Proof.
  destruct scores as [|s0 rest]; [constructor|].
  destruct (py_min_spec rest s0) as [Hlo_in Hlo].
  destruct (py_max_spec rest s0) as [Hhi_in Hhi].
  rewrite Forall_forall in Hlo, Hhi.
  destruct (normalize_cases s0 rest) as [[_ Hrep]|[Hlt Hmap]].
  - (* constant input: all ones *)
    rewrite Hrep. simpl length. simpl repeat.
    destruct (py_min_spec (repeat 1 (length rest)) 1) as [Hmin1 _].
    destruct (py_max_spec (repeat 1 (length rest)) 1) as [Hmax1 _].
    assert (forall x, In x (1 :: repeat 1 (length rest)) -> x = 1) as Hone.
    { intros x [<-|Hx]; [reflexivity | now apply repeat_spec in Hx]. }
    apply Hone in Hmin1, Hmax1.
    destruct (normalize_cases 1 (repeat 1 (length rest)))
      as [[_ ->]|[Hlt' _]].
    + simpl. rewrite repeat_length. apply Forall2_Qeq_refl.
    + rewrite Hmin1, Hmax1 in Hlt'. exfalso. now apply (Qlt_irrefl 1).
  - (* scaled input: least value 0, greatest value 1 *)
    rewrite Hmap.
    set (lo := py_min s0 rest) in *. set (hi := py_max s0 rest) in *.
    assert (forall x, In x (map (scale lo hi) (s0 :: rest)) ->
                      0 <= x /\ x <= 1) as Hrange.
    { intros x Hx. apply in_map_iff in Hx. destruct Hx as [s [<- Hs]].
      apply scale_range; [exact Hlt | now apply Hlo | now apply Hhi]. }
    assert (scale lo hi lo == 0) as Hzero by (unfold scale, Qdiv; ring).
    assert (scale lo hi hi == 1) as Hone by (unfold scale; field; lra).
    simpl map in *.
    set (n0 := scale lo hi s0) in *. set (ns := map (scale lo hi) rest) in *.
    destruct (py_min_spec ns n0) as [Hlo'_in Hlo'].
    destruct (py_max_spec ns n0) as [Hhi'_in Hhi'].
    rewrite Forall_forall in Hlo', Hhi'.
    assert (py_min n0 ns == 0) as Hlo0.
    { apply Qle_antisym; [|now apply Hrange].
      rewrite <- Hzero. apply Hlo'.
      change (In (scale lo hi lo) (map (scale lo hi) (s0 :: rest))).
      now apply in_map. }
    assert (py_max n0 ns == 1) as Hhi1.
    { apply Qle_antisym; [now apply Hrange|].
      rewrite <- Hone. apply Hhi'.
      change (In (scale lo hi hi) (map (scale lo hi) (s0 :: rest))).
      now apply in_map. }
    destruct (normalize_cases n0 ns) as [[Heq _]|[_ ->]].
    + rewrite Hlo0, Hhi1 in Heq. discriminate Heq.
    + apply Forall2_map_Qeq. intros x _. unfold scale.
      rewrite Hlo0, Hhi1. field.
Qed.

End NormalizeFacts.

(** ** Further properties of fusion *)

Module FusionFacts.
Import Retrieval.
Import FusionTheory.
Open Scope string_scope.
Open Scope Q_scope.

Lemma fold_left_invariant_in {A B : Type} (P : A -> Prop) (f : A -> B -> A)
  (l : list B) (a : A) :
  (forall a b, In b l -> P a -> P (f a b)) -> P a -> P (fold_left f l a).
Proof.
  revert a. induction l as [|b l IH]; simpl; intros a Hstep Ha; [exact Ha|].
  apply IH.
  - intros a' b' Hb'. apply Hstep. now right.
  - apply Hstep; [now left | exact Ha].
Qed.

(** Every document held by the dict is one of [allowed]. *)
Lemma dict_set_docs (allowed : list Document) key doc score (d : DocScores) :
  In doc allowed ->
  Forall (fun e => In (fst (snd e)) allowed) d ->
  Forall (fun e => In (fst (snd e)) allowed) (dict_set key (doc, score) d).
Proof.
  intros Hdoc. induction d as [|[k0 v0] d IH]; simpl; intros H.
  - now repeat constructor.
  - inversion H; subst. destruct (k0 =? key); constructor; auto.
Qed.

Lemma dict_add_score_docs (allowed : list Document) key delta (d : DocScores) :
  Forall (fun e => In (fst (snd e)) allowed) d ->
  Forall (fun e => In (fst (snd e)) allowed) (dict_add_score key delta d).
Proof.
  induction d as [|[k0 [doc0 s0]] d IH]; simpl; intros H; [constructor|].
  inversion H; subst. destruct (k0 =? key); constructor; auto.
Qed.

Lemma fuse_docs vw bw (V B : list (Document * Q)) :
  Forall (fun e => In (fst (snd e)) (map fst V ++ map fst B))
    (fuse vw bw V B).
Proof.
  unfold fuse. apply fold_left_invariant_in.
  - intros d [doc s] Hin Hd. unfold add_bm25.
    destruct (dict_mem (_get_doc_id doc) d).
    + now apply dict_add_score_docs.
    + apply dict_set_docs; [|exact Hd].
      apply in_or_app. right. apply in_map_iff. now exists (doc, s).
  - apply fold_left_invariant_in; [|constructor].
    intros d [doc s] Hin Hd. unfold add_vector.
    apply dict_set_docs; [|exact Hd].
    apply in_or_app. left. apply in_map_iff. now exists (doc, s).
Qed.

Lemma in_map_fst_combine {A B : Type} (l1 : list A) (l2 : list B) (x : A) :
  In x (map fst (combine l1 l2)) -> In x l1.
Proof.
  intros H. apply in_map_iff in H. destruct H as [[a b] [<- Hin]].
  now apply in_combine_l in Hin.
Qed.

(** X11: with the BM25 index built, [hybrid_search] never returns two
    documents with the same doc id, never returns more than k documents,
    and returns only documents found by the vector search or by the BM25
    search for 2k. *)
Theorem hybrid_search_deduplicates
  (self : HybridRetriever) (query : string) (k : nat) (vw bw : option Q)
  (docs : list Document) (scores : list Q) :
  bm25 self <> None ->
  hybrid_search self query k vw bw = Ok (docs, scores) ->
  NoDup (map _get_doc_id docs)
  /\ (length docs <= k)%nat
  /\ length docs = length scores
  /\ exists bm25_docs bm25_scores,
       bm25_search self query (k * 2) = Ok (bm25_docs, bm25_scores)
       /\ forall doc,
            In doc docs ->
            In doc (fst (vector_search self query (k * 2)))
            \/ In doc bm25_docs.
Proof.
  intros Hbm H. unfold hybrid_search in H.
  destruct (bm25 self) as [get_scores|]; [|congruence].
  destruct (vector_search self query (k * 2)) as [vd vs] eqn:Hvec.
  destruct (bm25_search self query (k * 2)) as [[bd bs]|] eqn:Hb25;
    simpl in H; [|discriminate].
  inversion H as [[Hd Hs]]. clear H.
  set (fused := fuse (float_or vw (cfg_vector_weight self))
                  (float_or bw (cfg_bm25_weight self))
                  (combine vd (_normalize_scores vs))
                  (combine bd (_normalize_scores bs))) in *.
  destruct (fuse_ok (float_or vw (cfg_vector_weight self))
              (float_or bw (cfg_bm25_weight self))
              (combine vd (_normalize_scores vs))
              (combine bd (_normalize_scores bs))) as [Hnd Hwk].
  fold fused in Hnd, Hwk.
  pose proof (sorted_desc_perm (map snd fused)) as Hperm.
  assert (map fst fused = ids (map snd fused)) as Hkeys.
  { unfold ids. rewrite map_map. apply map_ext_in. intros e He.
    unfold well_keyed in Hwk. rewrite Forall_forall in Hwk. now apply Hwk. }
  split.
  { rewrite map_map, <- firstn_map. apply RankingFacts.NoDup_firstn.
    eapply Permutation_NoDup.
    - symmetry. apply Permutation_map. exact Hperm.
    - fold (ids (map snd fused)). now rewrite <- Hkeys. }
  split; [rewrite length_map; apply firstn_le_length|].
  split; [now rewrite !length_map|].
  exists bd, bs. split; [reflexivity|].
  intros doc Hin. apply in_map_iff in Hin. destruct Hin as [[d s] [Hd' Hin]].
  simpl in Hd'. subst d.
  apply RankingFacts.in_firstn in Hin.
  apply (Permutation_in _ Hperm) in Hin.
  apply in_map_iff in Hin. destruct Hin as [[key e] [He Hin]].
  simpl in He. subst e.
  pose proof (fuse_docs (float_or vw (cfg_vector_weight self))
                (float_or bw (cfg_bm25_weight self))
                (combine vd (_normalize_scores vs))
                (combine bd (_normalize_scores bs))) as Hdocs.
  fold fused in Hdocs. rewrite Forall_forall in Hdocs.
  specialize (Hdocs _ Hin). simpl in Hdocs.
  apply in_app_or in Hdocs. destruct Hdocs as [Hv|Hb].
  - left. simpl. now apply in_map_fst_combine in Hv.
  - right. now apply in_map_fst_combine in Hb.
Qed.

Lemma hybrid_search_deduplicates_witness :
  exists docs scores,
    hybrid_search Examples.corpus "q" 2 None None = Ok (docs, scores)
    /\ NoDup (map _get_doc_id docs)
    /\ (length docs <= 2)%nat.
Proof.
  destruct (hybrid_search Examples.corpus "q" 2 None None)
    as [[docs scores]|] eqn:H; [|vm_compute in H; discriminate H].
  exists docs, scores. split; [reflexivity|].
  destruct (hybrid_search_deduplicates Examples.corpus "q" 2 None None
              docs scores) as [Hnd [Hle _]].
  - discriminate.
  - exact H.
  - split; [exact Hnd | exact Hle].
Defined.

Lemma score_in_combine key (docs : list Document) (ns : list Q) (v : Q) :
  score_in key (combine docs ns) = Some v -> In v ns.
Proof.
  revert ns. induction docs as [|d docs IH]; intros [|n ns] H; simpl in H;
    try discriminate.
  destruct (_get_doc_id d =? key).
  - inversion H. now left.
  - right. now apply IH.
Qed.

Lemma weighted_range (v w : Q) :
  0 <= v /\ v <= 1 -> 0 <= w -> 0 <= v * w /\ v * w <= w.
Proof.
  intros [H0 H1] Hw. split.
  - now apply Qmult_le_0_compat.
  - rewrite <- (Qmult_1_l w) at 2. now apply Qmult_le_compat_r.
Qed.

(** X12: with the BM25 index built, weights in force that are not negative
    and candidate lists that hold each doc id at most once, every fused
    score that [hybrid_search] returns lies between 0 and vector_weight +
    bm25_weight (so between 0 and 1 for weights that sum to 1). *)
Theorem hybrid_search_score_bounds
  (self : HybridRetriever) (query : string) (k : nat) (vw bw : option Q)
  (vector_docs bm25_docs docs : list Document)
  (vector_scores bm25_scores scores : list Q) :
  vector_search self query (k * 2) = (vector_docs, vector_scores) ->
  bm25_search self query (k * 2) = Ok (bm25_docs, bm25_scores) ->
  NoDup (map _get_doc_id vector_docs) ->
  NoDup (map _get_doc_id bm25_docs) ->
  0 <= float_or vw (cfg_vector_weight self) ->
  0 <= float_or bw (cfg_bm25_weight self) ->
  hybrid_search self query k vw bw = Ok (docs, scores) ->
  Forall (fun s => 0 <= s
                   /\ s <= float_or vw (cfg_vector_weight self)
                           + float_or bw (cfg_bm25_weight self)) scores.
Proof.
  intros Hvec Hb25 Hndv Hndb Hvw Hbw H.
  set (VW := float_or vw (cfg_vector_weight self)) in *.
  set (BW := float_or bw (cfg_bm25_weight self)) in *.
  unfold hybrid_search in H.
  destruct (bm25 self) as [get_scores|] eqn:Hsome;
    [|unfold bm25_search in Hb25; rewrite Hsome in Hb25; discriminate].
  rewrite Hvec, Hb25 in H. simpl in H. inversion H as [[Hd Hs]]. clear H Hd Hs.
  set (V := combine vector_docs (_normalize_scores vector_scores)).
  set (B := combine bm25_docs (_normalize_scores bm25_scores)).
  fold VW BW.
  set (fused := fuse VW BW V B).
  destruct (fuse_ok VW BW V B) as [Hnd Hwk]. fold fused in Hnd, Hwk.
  assert (ids V = map _get_doc_id vector_docs) as HidsV.
  { apply ids_combine. rewrite NormalizeTheory.length_normalize.
    now apply RetrieveTheory.vector_search_lengths in Hvec. }
  assert (ids B = map _get_doc_id bm25_docs) as HidsB.
  { apply ids_combine. rewrite NormalizeTheory.length_normalize.
    now apply RetrieveTheory.bm25_search_lengths in Hb25. }
  apply Forall_forall. intros s Hin.
  apply in_map_iff in Hin. destruct Hin as [[d s'] [Hs' Hin]].
  simpl in Hs'. subst s'.
  apply RankingFacts.in_firstn in Hin.
  apply (Permutation_in _ (sorted_desc_perm (map snd fused))) in Hin.
  apply in_map_iff in Hin. destruct Hin as [[key e] [He Hin]].
  simpl in He. subst e.
  assert (key = _get_doc_id d) as ->.
  { unfold well_keyed in Hwk. rewrite Forall_forall in Hwk.
    now apply (Hwk _ Hin). }
  apply (dict_get_nodup _ _ _ Hnd) in Hin.
  assert (get_score (_get_doc_id d) fused
          = fused_score VW BW (score_in (_get_doc_id d) V)
              (score_in (_get_doc_id d) B)) as Hscore
    by (apply fuse_score; congruence).
  unfold get_score in Hscore. rewrite Hin in Hscore. simpl in Hscore.
  pose proof (NormalizeFacts.normalize_range vector_scores) as Hrv.
  pose proof (NormalizeFacts.normalize_range bm25_scores) as Hrb.
  rewrite Forall_forall in Hrv, Hrb.
  destruct (score_in (_get_doc_id d) V) as [v|] eqn:Ev;
    destruct (score_in (_get_doc_id d) B) as [b|] eqn:Eb;
    simpl in Hscore; try discriminate; inversion Hscore; subst s;
    try (apply score_in_combine in Ev; apply Hrv in Ev;
         pose proof (weighted_range v VW Ev Hvw));
    try (apply score_in_combine in Eb; apply Hrb in Eb;
         pose proof (weighted_range b BW Eb Hbw));
    lra.
Qed.

Lemma hybrid_search_score_bounds_witness :
  exists docs scores,
    hybrid_search Examples.corpus "q" 1 None None = Ok (docs, scores)
    /\ Forall (fun s => 0 <= s /\ s <= (3 # 4) + (1 # 4)) scores.
Proof.
  destruct (hybrid_search Examples.corpus "q" 1 None None)
    as [[docs scores]|] eqn:H; [|vm_compute in H; discriminate H].
  exists docs, scores. split; [reflexivity|].
  apply (hybrid_search_score_bounds Examples.corpus "q" 1 None None
           [Examples.docA; Examples.docC] [Examples.docC; Examples.docD] docs
           [8; 7] [4; 3] scores).
  - reflexivity.
  - reflexivity.
  - repeat constructor; simpl; intuition discriminate.
  - repeat constructor; simpl; intuition discriminate.
  - simpl. lra.
  - simpl. lra.
  - exact H.
Defined.

End FusionFacts.

(** ** Document ids *)

Module DocIdFacts.
Import Retrieval.
Open Scope string_scope.

Lemma in_append_underscore (s t : string) :
  In "_"%char (list_ascii_of_string (s ++ "_" ++ t)).
Proof. induction s as [|c s IH]; simpl; [now left | now right]. Qed.

Lemma uint_no_underscore (d : Decimal.uint) :
  ~ In "_"%char (list_ascii_of_string (NilEmpty.string_of_uint d)).
Proof.
  induction d; simpl; intros H; try contradiction;
    destruct H as [H|H]; try discriminate H; contradiction.
Qed.

Lemma str_of_int_no_underscore (z : Z) :
  ~ In "_"%char (list_ascii_of_string (str_of_int z)).
Proof.
  unfold str_of_int, NilZero.string_of_int, NilZero.string_of_uint.
  destruct (Z.to_int z) as [d|d]; destruct d; simpl;
    intros H; repeat (destruct H as [H|H]; try discriminate H);
    try contradiction;
    try (now apply (uint_no_underscore d));
    try (revert H; apply uint_no_underscore).
Qed.

Lemma str_of_int_injective (z1 z2 : Z) :
  str_of_int z1 = str_of_int z2 -> z1 = z2.
Proof.
  unfold str_of_int. intros H.
  assert (forall z, Z.to_int z <> Decimal.Pos Decimal.Nil
                    /\ Z.to_int z <> Decimal.Neg Decimal.Nil) as Hnn.
  { intros [|p|p]; simpl; split; try discriminate;
      intros E; inversion E as [E'];
      now apply DecimalPos.Unsigned.to_uint_nonnil in E'. }
  destruct (Hnn z1) as [Hp1 Hn1]. destruct (Hnn z2) as [Hp2 Hn2].
  pose proof (NilZero.isi _ Hp1 Hn1) as E1.
  pose proof (NilZero.isi _ Hp2 Hn2) as E2.
  rewrite H in E1. rewrite E1 in E2. inversion E2 as [E].
  rewrite <- (DecimalZ.of_to z1), <- (DecimalZ.of_to z2). now rewrite E.
Qed.

Lemma split_at_last_underscore (s1 s2 t1 t2 : string) :
  ~ In "_"%char (list_ascii_of_string t1) ->
  ~ In "_"%char (list_ascii_of_string t2) ->
  s1 ++ "_" ++ t1 = s2 ++ "_" ++ t2 ->
  s1 = s2 /\ t1 = t2.
Proof.
  intros H1 H2. revert s2.
  induction s1 as [|c s1 IH]; intros [|c' s2] H; simpl in H.
  - inversion H. now split.
  - inversion H as [[Hc Ht]]. exfalso. apply H1. rewrite Ht.
    apply in_append_underscore.
  - inversion H as [[Hc Ht]]. exfalso. apply H2. rewrite <- Ht.
    apply in_append_underscore.
  - inversion H as [[Hc Ht]]. destruct (IH _ Ht) as [-> ->]. now split.
Qed.

(** X13: two documents get the same doc id only if they have the same
    source (a missing source counting as "") and the same page (a missing
    page counting as 0): the id separates source and page without
    ambiguity, whatever characters the source holds. *)
Theorem get_doc_id_injective (doc1 doc2 : Document) :
  _get_doc_id doc1 = _get_doc_id doc2
  <->
  get (md_source (metadata doc1)) "" = get (md_source (metadata doc2)) ""
  /\ get (md_page (metadata doc1)) 0%Z = get (md_page (metadata doc2)) 0%Z.
Proof.
  unfold _get_doc_id. split.
  - intros H. apply split_at_last_underscore in H;
      try apply str_of_int_no_underscore.
    destruct H as [Hs Hp]. split; [exact Hs|].
    now apply str_of_int_injective.
  - intros [-> ->]. reflexivity.
Qed.

End DocIdFacts.

(** ** Fusion by document key *)

Module FusionClaim.
Import Retrieval.
Open Scope string_scope.
Open Scope Q_scope.





End FusionClaim.

(** ** Further properties of the validator *)

Module ValidatorFacts.
Import Validator.
Import ValidatorTheory.
Open Scope string_scope.
Open Scope Q_scope.
Open Scope list_scope.

Lemma of_nat_nonneg (n : nat) : 0 <= of_nat n.
Proof.
  unfold of_nat. change 0 with (inject_Z 0). rewrite <- Zle_Qle. lia.
Qed.

Lemma of_nat_pos (n : nat) : (0 < n)%nat -> 0 < of_nat n.
Proof.
  intros H. unfold of_nat. change 0 with (inject_Z 0). rewrite <- Zlt_Qlt. lia.
Qed.

Lemma of_nat_le (n m : nat) : (n <= m)%nat -> of_nat n <= of_nat m.
Proof. intros H. unfold of_nat. rewrite <- Zle_Qle. lia. Qed.

Lemma Qdiv_nonneg (a b : Q) : 0 <= a -> 0 <= b -> 0 <= a / b.
Proof.
  intros Ha Hb. unfold Qdiv. apply Qmult_le_0_compat; [exact Ha|].
  now apply Qinv_le_0_compat.
Qed.

Lemma fmin_ge (a b c : Q) : c <= a -> c <= b -> c <= fmin a b.
Proof. intros Ha Hb. destruct (fmin_spec a b) as [[_ ->]|[_ ->]]; assumption. Qed.

Lemma fmin_le_l (a b : Q) : fmin a b <= a.
Proof. destruct (fmin_spec a b) as [[H ->]|[H ->]]; lra. Qed.

(** The citations of [answer] that name one of [num_evidences] evidences. *)
Lemma validate_citations_cases (answer : str) (num_evidences : nat) :
  let valid :=
    filter (fun n => (1 <=? n)%nat && (n <=? num_evidences)%nat)
      (map int (findall_citations Outside answer)) in
  (valid = [] /\ _validate_citations answer num_evidences = 0)
  \/
  (valid <> [] /\ (0 < num_evidences)%nat
   /\ _validate_citations answer num_evidences
      = fmin
          (of_nat (length (nodup Nat.eq_dec valid)) / of_nat num_evidences
           * (7 # 10)
           + fmin (of_nat (length valid)
                   / of_nat (Nat.max (count_words false answer) 1) * 100) 1
             * (3 # 10)) 1).
Proof.
  intros valid. unfold _validate_citations.
  destruct (findall_citations Outside answer) as [|c cs] eqn:Hc.
  - left. split; reflexivity.
  - fold valid. destruct valid as [|m ms] eqn:Hv.
    + left. split; reflexivity.
    + right. split; [discriminate|].
      assert (In m valid) as Hm by (rewrite Hv; now left).
      unfold valid in Hm. apply filter_In in Hm. destruct Hm as [_ Hm].
      apply andb_true_iff in Hm. destruct Hm as [H1 H2].
      apply Nat.leb_le in H1, H2.
      assert (0 < num_evidences)%nat as Hpos by lia.
      split; [exact Hpos|].
      assert ((0 <? num_evidences)%nat = true) as ->
        by now apply Nat.ltb_lt.
      reflexivity.
Qed.

(** A marker written with an Arabic-Indic digit counts like any other:
    with three evidences, ["Prazo [٣]"] scores 0.7/3 + 0.3. *)
Remark citation_in_arabic_indic_digits :
  map int (findall_citations Outside (u "Prazo [٣]")) = [3%nat]
  /\ _validate_citations (u "Prazo [٣]") 3 == 8 # 15.
Proof. split; vm_compute; reflexivity. Qed.

(** X14: the citation score is 0 when the answer has no marker [n] with
    1 <= n <= number of evidences (markers outside that range do not
    count), and it is positive as soon as there is one. *)
Theorem citation_score_zero_iff (answer : str) (num_evidences : nat) :
  _validate_citations answer num_evidences == 0
  <->
  filter (fun n => (1 <=? n)%nat && (n <=? num_evidences)%nat)
    (map int (findall_citations Outside answer)) = [].
Proof.
  destruct (validate_citations_cases answer num_evidences)
    as [[Hv ->]|[Hv [Hpos ->]]].
  - split; [intros _; exact Hv | reflexivity].
  - split; [|intros H; contradiction].
    intros Hzero. exfalso.
    set (valid := filter _ _) in *.
    assert (0 < of_nat (length (nodup Nat.eq_dec valid))) as Hu.
    { apply of_nat_pos. destruct valid as [|m ms]; [congruence|].
      assert (In m (nodup Nat.eq_dec (m :: ms))) as Hin
        by (apply nodup_In; now left).
      destruct (nodup Nat.eq_dec (m :: ms)); [contradiction | simpl; lia]. }
    assert (0 < of_nat (length (nodup Nat.eq_dec valid))
                / of_nat num_evidences) as Hcov.
    { apply Qlt_shift_div_l; [now apply of_nat_pos | lra]. }
    assert (0 <= fmin (of_nat (length valid)
                       / of_nat (Nat.max (count_words false answer) 1) * 100)
                  1) as Hdens.
    { apply fmin_ge; [|lra].
      apply Qmult_le_0_compat; [|lra].
      apply Qdiv_nonneg; apply of_nat_nonneg. }
    set (x := _ * (7 # 10) + _ * (3 # 10)) in *.
    assert (0 < x) as Hx by (unfold x; lra).
    destruct (fmin_spec x 1) as [[_ E]|[_ E]]; rewrite E in Hzero; lra.
Qed.

(** X15: the citation score lies in [0, 1] and the completeness score in
    [0.3, 1], for every answer, question and number of evidences. *)
Theorem component_score_ranges
  (question answer : str) (num_evidences : nat) :
  (0 <= _validate_citations answer num_evidences
   /\ _validate_citations answer num_evidences <= 1)
  /\ (3 # 10 <= _validate_completeness answer question
      /\ _validate_completeness answer question <= 1).
Proof.
  split.
  - destruct (validate_citations_cases answer num_evidences)
      as [[_ ->]|[_ [Hpos ->]]]; [split; lra|].
    split; [|apply fmin_le_r].
    apply fmin_ge; [|lra].
    assert (0 <= of_nat (length
                           (nodup Nat.eq_dec
                              (filter
                                 (fun n => (1 <=? n)%nat
                                           && (n <=? num_evidences)%nat)
                                 (map int (findall_citations Outside answer)))))
                 / of_nat num_evidences)
      by (apply Qdiv_nonneg; apply of_nat_nonneg).
    assert (0 <= fmin (of_nat (length
                                 (filter
                                    (fun n => (1 <=? n)%nat
                                              && (n <=? num_evidences)%nat)
                                    (map int
                                       (findall_citations Outside answer))))
                       / of_nat (Nat.max (count_words false answer) 1) * 100)
                  1).
    { apply fmin_ge; [|lra]. apply Qmult_le_0_compat; [|lra].
      apply Qdiv_nonneg; apply of_nat_nonneg. }
    lra.
  - split; [|apply validate_completeness_le_1].
    unfold _validate_completeness.
    destruct (length answer <? 100)%nat eqn:Hshort; [lra|].
    apply Nat.ltb_ge in Hshort.
    apply fmin_ge; [|lra].
    assert (2 # 10 <= (if (500 <=? length answer)%nat then 1
                       else of_nat (length answer) / of_nat 500)) as Hlen.
    { destruct (500 <=? length answer)%nat; [lra|].
      apply Qle_shift_div_l; [reflexivity|].
      apply Qle_trans with (of_nat 100); [vm_compute; discriminate|].
      now apply of_nat_le. }
    destruct (re_search _ answer); lra.
Qed.

Lemma fsum_nonneg (xs : list Q) : Forall (fun x => 0 <= x) xs -> 0 <= fsum xs.
Proof.
  unfold fsum.
  assert (forall acc, 0 <= acc -> Forall (fun x => 0 <= x) xs ->
                      0 <= fold_left Qplus xs acc) as H.
  { induction xs as [|x xs IH]; intros acc Hacc Hall; simpl; [exact Hacc|].
    inversion Hall; subst. apply IH; [lra | assumption]. }
  apply H. lra.
Qed.

(** X16: the evidence-quality score never exceeds 1, and it is not
    negative when the average retrieval score is not negative and no
    evidence has a precedence above 100. *)
Theorem evidence_quality_range (evidences : list Evidence) (avg_score : Q) :
  _validate_evidence_quality evidences avg_score <= 1
  /\ (0 <= avg_score ->
      Forall (fun e => forall p, precedence e = Some p -> (p <= 100)%Z)
        evidences ->
      0 <= _validate_evidence_quality evidences avg_score).
Proof.
  unfold _validate_evidence_quality.
  destruct evidences as [|e0 rest]; [split; intros; lra|].
  set (evidences := e0 :: rest).
  split; [apply fmin_le_r|].
  intros Havg Hprec. apply fmin_ge; [|lra].
  assert (0 <= fmin (of_nat (length evidences) / 5) 1) as Hq.
  { apply fmin_ge; [|lra]. apply Qdiv_nonneg; [apply of_nat_nonneg | lra]. }
  assert (0 <= fmin avg_score 1) as Hr by (apply fmin_ge; lra).
  assert (Forall (fun x => 0 <= x) (precedence_scores evidences)) as Hps.
  { unfold precedence_scores. apply Forall_forall. intros x Hx.
    apply in_flat_map in Hx. destruct Hx as [e [He Hx]].
    rewrite Forall_forall in Hprec. specialize (Hprec e He).
    destruct (precedence e) as [p|]; [|contradiction].
    destruct Hx as [<-|[]]. specialize (Hprec p eq_refl).
    assert (inject_Z p <= inject_Z 100) as Hp by (rewrite <- Zle_Qle; lia).
    assert (inject_Z p / 100 <= 1).
    { apply Qle_shift_div_r; [reflexivity|].
      change (inject_Z 100) with 100 in Hp. lra. }
    lra. }
  assert (0 <= match precedence_scores evidences with
               | [] => 1 # 2
               | _ :: _ => fsum (precedence_scores evidences)
                           / of_nat (length (precedence_scores evidences))
               end) as Hp.
  { destruct (precedence_scores evidences) as [|x xs] eqn:E; [lra|].
    apply Qdiv_nonneg; [now apply fsum_nonneg | apply of_nat_nonneg]. }
  lra.
Qed.

Lemma evidence_quality_range_witness :
  0 <= _validate_evidence_quality sample_evidences (85 # 100).
Proof.
  apply (proj2 (evidence_quality_range sample_evidences (85 # 100))).
  - lra.
  - repeat constructor; intros p H; discriminate H.
Defined.

Lemma label_alta_inv (x : Q) : label x = ALTA -> 8 # 10 <= x.
Proof.
  unfold label. destruct (Qle_bool (8 # 10) x) eqn:E.
  - intros _. now apply Qle_bool_iff.
  - destruct (Qle_bool (6 # 10) x), (Qle_bool (4 # 10) x); discriminate.
Qed.

(** X17: with fewer than two evidences [validate_response] never returns
    ALTA, whatever the answer and the average retrieval score. *)
Theorem few_evidences_never_alta
  (question answer : str) (evidences : list Evidence) (avg_score : Q) :
  (length evidences < 2)%nat ->
  confidence (validate_response question answer evidences avg_score) <> ALTA.
Proof.
  intros Hfew. rewrite validate_response_confidence.
  destruct (_is_no_answer answer); [discriminate|].
  destruct (_detect_conflicts answer); [discriminate|].
  unfold components. rewrite calculate_confidence_three.
  assert ((length evidences <? 2)%nat = true) as -> by now apply Nat.ltb_lt.
  assert (_validate_citations answer (length evidences) <= 1) as Hc.
  { destruct (validate_citations_cases answer (length evidences))
      as [[_ ->]|[_ [_ ->]]]; [lra | apply fmin_le_r]. }
  pose proof (validate_completeness_le_1 answer question) as Hm.
  assert (_validate_evidence_quality evidences avg_score <= 1) as He.
  { unfold _validate_evidence_quality.
    destruct evidences; [lra | apply fmin_le_r]. }
  set (c := _validate_citations answer (length evidences)) in *.
  set (m := _validate_completeness answer question) in *.
  set (e := _validate_evidence_quality evidences avg_score) in *.
  clearbody c m e.
  rewrite label_cap. intros Halta. apply label_alta_inv in Halta.
  assert ((0 + c + m + e) / 3 * (7 # 10) == (c + m + e) * (7 # 30)) as E
    by field.
  rewrite E in Halta. lra.
Qed.

Lemma few_evidences_never_alta_witness :
  confidence
    (validate_response (u "Qual o prazo?") sample_answer
       (firstn 1 sample_evidences) 1) <> ALTA.
Proof.
  apply few_evidences_never_alta. simpl. lia.
Defined.

Lemma label_monotone (x y : Q) :
  x <= y -> (rank (label x) <= rank (label y))%nat.
Proof.
  intros Hxy. unfold label.
  destruct (Qle_bool (8 # 10) x) eqn:X8;
    destruct (Qle_bool (6 # 10) x) eqn:X6;
    destruct (Qle_bool (4 # 10) x) eqn:X4;
    destruct (Qle_bool (8 # 10) y) eqn:Y8;
    destruct (Qle_bool (6 # 10) y) eqn:Y6;
    destruct (Qle_bool (4 # 10) y) eqn:Y4;
    simpl; try lia;
    repeat match goal with
           | H : Qle_bool _ _ = true |- _ => apply Qle_bool_iff in H
           | H : Qle_bool _ _ = false |- _ => apply Qle_bool_false in H
           end; lra.
Qed.

Lemma fmin_monotone (x y : Q) : x <= y -> fmin x 1 <= fmin y 1.
Proof.
  intros H.
  destruct (fmin_spec x 1) as [[? ->]|[? ->]];
    destruct (fmin_spec y 1) as [[? ->]|[? ->]]; lra.
Qed.

(** X18: the confidence label never goes down when component scores go up
    or when the number of evidences goes up (for scores whose sum is not
    negative): INSUFICIENTE < BAIXA < MEDIA < ALTA. *)
Theorem confidence_monotone (c c' m m' e e' : Q) (n n' : nat) :
  c <= c' -> m <= m' -> e <= e' -> (n <= n')%nat -> 0 <= c + m + e ->
  (rank (_calculate_confidence
           [("citations", c); ("completeness", m); ("evidence_quality", e)] n)
   <= rank (_calculate_confidence
              [("citations", c'); ("completeness", m');
               ("evidence_quality", e')] n'))%nat.
Proof.
  intros Hc Hm He Hn Hpos. rewrite !calculate_confidence_three.
  apply label_monotone. apply fmin_monotone.
  set (M := (0 + c + m + e) / 3). set (M' := (0 + c' + m' + e') / 3).
  assert (M == (c + m + e) * (1 # 3)) as HM by (unfold M; field).
  assert (M' == (c' + m' + e') * (1 # 3)) as HM' by (unfold M'; field).
  clearbody M M'.
  destruct (Nat.ltb_spec n 2); destruct (Nat.ltb_spec n' 2);
    destruct (Nat.leb_spec 5 n); destruct (Nat.leb_spec 5 n');
    try (exfalso; lia); lra.
Qed.

Lemma confidence_monotone_witness :
  (rank (_calculate_confidence
           [("citations", 1 # 2); ("completeness", 1 # 2);
            ("evidence_quality", 1 # 2)]%Q 1)
   <= rank (_calculate_confidence
              [("citations", 1); ("completeness", 1 # 2);
               ("evidence_quality", 1)]%Q 5))%nat.
Proof.
  apply confidence_monotone; try lra. lia.
Defined.

Lemma warn_if_low_nil (x : Q) (message : string) (warnings : list string) :
  warn_if_low x message warnings = []
  <-> warnings = [] /\ 1 # 2 <= x.
Proof.
  unfold warn_if_low. destruct (Qle_bool (1 # 2) x) eqn:E.
  - apply Qle_bool_iff in E. intuition.
  - apply Qle_bool_false in E. split.
    + intros H. now apply app_eq_nil in H.
    + intros [_ H]. lra.
Qed.

(** X19: [validate_response] always reports is_valid, and never an empty
    list of warnings; when neither short-circuit fires it reports no
    warnings at all exactly when the citation, completeness and
    evidence-quality scores are all at least 0.5. *)
Theorem warnings_reflect_scores
  (question answer : str) (evidences : list Evidence) (avg_score : Q) :
  is_valid (validate_response question answer evidences avg_score) = true
  /\ warnings (validate_response question answer evidences avg_score)
     <> Some []
  /\ (_is_no_answer answer = false ->
      _detect_conflicts answer = false ->
      (warnings (validate_response question answer evidences avg_score) = None
       <->
       1 # 2 <= _validate_citations answer (length evidences)
       /\ 1 # 2 <= _validate_completeness answer question
       /\ 1 # 2 <= _validate_evidence_quality evidences avg_score)).
Proof.
  unfold validate_response.
  destruct (_is_no_answer answer).
  { repeat split; try discriminate. }
  destruct (_detect_conflicts answer).
  { repeat split; try discriminate.
    simpl. intros H. inversion H as [H']. now apply app_eq_nil in H'. }
  simpl.
  set (c := _validate_citations answer (length evidences)).
  set (m := _validate_completeness answer question).
  set (e := _validate_evidence_quality evidences avg_score).
  set (w := warn_if_low e _ (warn_if_low m _ (warn_if_low c _ []))).
  assert (w = [] <-> 1 # 2 <= c /\ 1 # 2 <= m /\ 1 # 2 <= e) as Hw.
  { unfold w. rewrite !warn_if_low_nil. intuition. }
  split; [reflexivity|]. split.
  - destruct w; discriminate.
  - intros _ _. rewrite <- Hw. destruct w; split; congruence.
Qed.

Lemma warnings_reflect_scores_witness :
  warnings
    (validate_response (u "Qual o prazo?") sample_answer sample_evidences
       (85 # 100)) = None.
Proof.
  destruct (warnings_reflect_scores (u "Qual o prazo?") sample_answer
              sample_evidences (85 # 100)) as [_ [_ H]].
  apply H.
  - vm_compute. reflexivity.
  - vm_compute. reflexivity.
  - repeat split; vm_compute; discriminate.
Defined.

(** *** The patterns as substring tests *)

Lemma match_here_prefix (p : str) (re : regex) (s : str) :
  match_here (map Chr p ++ re) s = true
  <-> exists t, s = p ++ t /\ match_here re t = true.
Proof.
  revert s. induction p as [|c p IH]; intros s; simpl.
  - split; [intros H; now exists s | intros [t [-> H]]; exact H].
  - destruct s as [|a s].
    + split; [discriminate | intros [t [H _]]; discriminate].
    + rewrite andb_true_iff, N.eqb_eq, IH. split.
      * intros [-> [t [-> H]]]. now exists t.
      * intros [t [H Hm]]. inversion H; subst. split; [reflexivity|].
        now exists t.
Qed.

Lemma re_search_occurs (re : regex) (s : str) :
  re_search re s = true
  <-> exists pre t, s = pre ++ t /\ match_here re t = true.
Proof.
  induction s as [|a s IH]; simpl; rewrite orb_true_iff.
  - split.
    + intros [H|H]; [|discriminate]. now exists [], [].
    + intros [pre [t [H Hm]]]. symmetry in H. apply app_eq_nil in H.
      destruct H as [_ ->]. now left.
  - rewrite IH. split.
    + intros [H|[pre [t [-> Hm]]]].
      * now exists [], (a :: s).
      * now exists (a :: pre), t.
    + intros [[|b pre] [t [H Hm]]]; simpl in H.
      * subst t. now left.
      * inversion H; subst. right. now exists pre, t.
Qed.

Lemma search_phrase (p : str) (s : str) :
  re_search (map Chr p) s = true <-> occurs_in p s.
Proof.
  rewrite re_search_occurs. unfold occurs_in.
  rewrite <- (app_nil_r (map Chr p)). split.
  - intros [pre [t [-> H]]]. apply match_here_prefix in H.
    destruct H as [post [-> _]]. now exists pre, post.
  - intros [pre [post ->]]. exists pre, (p ++ post). split; [reflexivity|].
    apply match_here_prefix. now exists post.
Qed.

Lemma search_phrase_class (p : str) (f : N -> bool) (s : str) :
  re_search (map Chr p ++ [Cls f]) s = true
  <-> exists c, f c = true /\ occurs_in (p ++ [c]) s.
Proof.
  rewrite re_search_occurs. unfold occurs_in. split.
  - intros [pre [t [-> H]]]. apply match_here_prefix in H.
    destruct H as [t' [-> H]]. simpl in H.
    destruct t' as [|c post]; [discriminate|].
    rewrite andb_true_r in H. exists c. split; [exact H|].
    exists pre, post. now rewrite <- app_assoc.
  - intros [c [Hc [pre [post ->]]]].
    exists pre, ((p ++ [c]) ++ post). split; [reflexivity|].
    rewrite <- app_assoc. apply match_here_prefix.
    exists (c :: post). split; [reflexivity|]. simpl. now rewrite Hc.
Qed.

Lemma one_of_oa (c : N) :
  one_of "oa" c = true <-> c = 111%N \/ c = 97%N.
Proof.
  unfold one_of. change (u "oa") with [111%N; 97%N]. simpl.
  rewrite !orb_true_iff, !N.eqb_eq. intuition discriminate.
Qed.

(** X20: [_is_no_answer] holds exactly when the lower-cased answer contains
    one of the phrases "não localizado", "não foi encontrado", "não foi
    encontrada", "insuficiente", "não há informação", "não consta", and
    [_detect_conflicts] exactly when it contains "conflito normativo",
    "interpretações conflitantes" or "divergência": each is a plain
    substring test, anywhere in the text. *)
Theorem markers_are_substrings (answer : str) :
  (_is_no_answer answer = true
   <-> exists phrase,
         In phrase no_answer_phrases /\ occurs_in phrase (lower answer))
  /\
  (_detect_conflicts answer = true
   <-> exists phrase,
         In phrase conflict_phrases /\ occurs_in phrase (lower answer)).
Proof.
  assert (u "não foi encontrado" = u "não foi encontrad" ++ [111%N]) as Ho
    by (vm_compute; reflexivity).
  assert (u "não foi encontrada" = u "não foi encontrad" ++ [97%N]) as Ha
    by (vm_compute; reflexivity).
  split.
  - unfold _is_no_answer, no_answer_patterns, no_answer_phrases, lit.
    cbn [existsb map]. rewrite !orb_true_iff, !search_phrase,
      search_phrase_class.
    split.
    + intros [H|[[c [Hc H]]|[H|[H|[H|H]]]]]; [| | | | |discriminate H].
      * eexists. split; [|exact H]. simpl. tauto.
      * apply one_of_oa in Hc. destruct Hc as [-> | ->].
        -- exists (u "não foi encontrado").
           split; [simpl; tauto | now rewrite Ho].
        -- exists (u "não foi encontrada").
           split; [simpl; tauto | now rewrite Ha].
      * eexists. split; [|exact H]. simpl. tauto.
      * eexists. split; [|exact H]. simpl. tauto.
      * eexists. split; [|exact H]. simpl. tauto.
    + intros [phrase [Hin H]]. simpl in Hin.
      destruct Hin as [<-|[<-|[<-|[<-|[<-|[<-|[]]]]]]].
      * now left.
      * right. left. exists 111%N.
        split; [now apply one_of_oa; left | now rewrite <- Ho].
      * right. left. exists 97%N.
        split; [now apply one_of_oa; right | now rewrite <- Ha].
      * right. right. now left.
      * right. right. right. now left.
      * right. right. right. right. now left.
  - unfold _detect_conflicts, conflict_patterns, conflict_phrases, lit.
    cbn [existsb map]. rewrite !orb_true_iff, !search_phrase.
    split.
    + intros [H|[H|[H|H]]]; [| | |discriminate H];
        eexists; (split; [|exact H]); simpl; tauto.
    + intros [phrase [Hin H]]. simpl in Hin.
      destruct Hin as [<-|[<-|[<-|[]]]]; tauto.
Qed.

(** *** validate_question *)

Lemma three_letters (s : str) :
  match_here [Cls is_ascii_letter; Cls is_ascii_letter; Plus is_ascii_letter]
    s = true
  <-> exists a b c post,
        s = a :: b :: c :: post
        /\ is_ascii_letter a = true /\ is_ascii_letter b = true
        /\ is_ascii_letter c = true.
Proof.
  split.
  - destruct s as [|a [|b [|c post]]]; simpl; try discriminate;
      rewrite ?andb_false_r; try discriminate.
    intros H. apply andb_true_iff in H. destruct H as [Ha H].
    apply andb_true_iff in H. destruct H as [Hb H].
    apply andb_true_iff in H. destruct H as [Hc _].
    now exists a, b, c, post.
  - intros [a [b [c [post [-> [Ha [Hb Hc]]]]]]]. simpl.
    rewrite Ha, Hb, Hc. now destruct post.
Qed.

(** X21: [validate_question] accepts a question exactly when it has between
    5 and 1000 characters and three ASCII letters in a row somewhere
    (accented letters do not count); it reports errors exactly when it
    rejects, and a missing question indicator alone never rejects. *)
Theorem validate_question_accepts (question : str) :
  (q_is_valid (validate_question question) = true
   <-> (5 <= length question <= 1000)%nat
       /\ exists pre a b c post,
            question = pre ++ a :: b :: c :: post
            /\ is_ascii_letter a = true /\ is_ascii_letter b = true
            /\ is_ascii_letter c = true)
  /\ (q_errors (validate_question question) = None
      <-> q_is_valid (validate_question question) = true).
Proof.
  assert (re_search
            [Cls is_ascii_letter; Cls is_ascii_letter; Plus is_ascii_letter]
            question = true
          <-> exists pre a b c post,
                question = pre ++ a :: b :: c :: post
                /\ is_ascii_letter a = true /\ is_ascii_letter b = true
                /\ is_ascii_letter c = true) as Hre.
  { rewrite re_search_occurs. split.
    - intros [pre [t [-> H]]]. apply three_letters in H.
      destruct H as [a [b [c [post [-> H]]]]]. now exists pre, a, b, c, post.
    - intros [pre [a [b [c [post [-> H]]]]]].
      exists pre, (a :: b :: c :: post). split; [reflexivity|].
      apply three_letters. now exists a, b, c, post. }
  assert (q_is_valid (validate_question question)
          = negb (length question <? 5)%nat
            && negb (1000 <? length question)%nat
            && re_search
                 [Cls is_ascii_letter; Cls is_ascii_letter;
                  Plus is_ascii_letter] question
          /\ (q_errors (validate_question question) = None
              <-> q_is_valid (validate_question question) = true)) as [Hv He].
  { unfold validate_question. cbv zeta. simpl q_is_valid. simpl q_errors.
    destruct (length question <? 5)%nat, (1000 <? length question)%nat,
      (re_search _ question); simpl; split; try reflexivity;
      split; intros H; try discriminate H; reflexivity. }
  split; [|exact He].
  rewrite Hv, !andb_true_iff, !negb_true_iff, Hre, Nat.ltb_ge, Nat.ltb_ge.
  intuition.
Qed.

End ValidatorFacts.

(** ** From the retrieval result to the validator *)

Module AnswerFacts.
Import Retrieval.
Import Validator.
Import Answer.
Open Scope string_scope.
Open Scope Q_scope.
Open Scope list_scope.

Lemma prepare_evidences_aligned (docs : list Document) (ss : list Q) :
  length docs = length ss ->
  length (_prepare_evidences docs ss) = length docs
  /\ map score (_prepare_evidences docs ss) = ss
  /\ Forall2
       (fun doc e =>
          source e = get (md_source (metadata doc)) "Desconhecido"
          /\ page e = md_page (metadata doc)
          /\ document_type e = get (md_tipo (metadata doc)) "Normativo"
          /\ precedence e = md_precedencia (metadata doc))
       docs (_prepare_evidences docs ss).
Proof.
  unfold _prepare_evidences.
  revert ss. induction docs as [|d docs IH]; intros [|x ss] H; simpl in *;
    try discriminate.
  - repeat split. constructor.
  - destruct (IH ss) as [Hl [Hs Hf]]; [congruence|].
    split; [now rewrite Hl|]. split; [now rewrite Hs|].
    constructor; [repeat split | exact Hf].
Qed.

(** X22: for every result of [retrieve], [_prepare_evidences] builds exactly
    one evidence per returned document, in order: it carries the score at
    the same position of the result, the document's page and precedence as
    they are, its source or "Desconhecido" and its type or "Normativo". *)
Theorem evidences_follow_result
  (self : HybridRetriever) (query : string) (k : option nat)
  (strategy : RetrievalStrategy) (apply_filters : bool)
  (filter_kwargs : option FilterKwargs) (r : RetrievalResult) :
  retrieve self query k strategy apply_filters filter_kwargs = Ok r ->
  length (_prepare_evidences (documents r) (Retrieval.scores r))
  = length (documents r)
  /\ map score (_prepare_evidences (documents r) (Retrieval.scores r))
     = Retrieval.scores r
  /\ Forall2
       (fun doc e =>
          source e = get (md_source (metadata doc)) "Desconhecido"
          /\ page e = md_page (metadata doc)
          /\ document_type e = get (md_tipo (metadata doc)) "Normativo"
          /\ precedence e = md_precedencia (metadata doc))
       (documents r)
       (_prepare_evidences (documents r) (Retrieval.scores r)).
Proof.
  intros H. apply prepare_evidences_aligned.
  eapply RetrieveTheory.retrieve_lengths_agree. exact H.
Qed.

Lemma evidences_follow_result_witness :
  exists r,
    retrieve Examples.corpus "q" (Some 2%nat) HYBRID true None = Ok r
    /\ length (_prepare_evidences (documents r) (Retrieval.scores r))
       = length (documents r).
Proof.
  destruct (retrieve Examples.corpus "q" (Some 2%nat) HYBRID true None)
    as [r|] eqn:H; [|vm_compute in H; discriminate H].
  exists r. split; [reflexivity|].
  exact (proj1 (evidences_follow_result _ _ _ _ _ _ _ H)).
Defined.

Lemma firstn_repeat {A : Type} (x : A) (n m : nat) :
  (n <= m)%nat -> firstn n (repeat x m) = repeat x n.
Proof.
  revert m. induction n as [|n IH]; intros [|m] H; simpl; try reflexivity;
    try lia.
  f_equal. apply IH. lia.
Qed.

Lemma of_nat_succ (n : nat) : of_nat (S n) == of_nat n + 1.
Proof.
  unfold of_nat. rewrite Nat2Z.inj_succ. unfold Z.succ.
  now rewrite inject_Z_plus.
Qed.

Lemma fsum_ones (n : nat) : fsum (repeat 1 n) == of_nat n.
Proof.
  unfold fsum.
  assert (forall acc, fold_left Qplus (repeat 1 n) acc == acc + of_nat n) as H.
  { induction n as [|n IH]; intros acc; simpl.
    - unfold of_nat. simpl. ring.
    - rewrite IH, of_nat_succ. ring. }
  rewrite H. ring.
Qed.

Lemma average_ones (n : nat) : (0 < n)%nat -> average (repeat 1 n) == 1.
Proof.
  destruct n as [|n]; [lia|]. intros _.
  assert (average (repeat 1 (S n))
          = fsum (repeat 1 (S n)) / of_nat (length (repeat 1 (S n))))
    as -> by reflexivity.
  rewrite repeat_length, (fsum_ones (S n)).
  field. intros E.
  pose proof (ValidatorFacts.of_nat_pos (S n)) as Hp.
  rewrite E in Hp. assert (0 < 0) by (apply Hp; lia). lra.
Qed.

(** X23: without a reranker, every score that [retrieve] returns for
    HYBRID_RERANK is 1.0, with or without filters, so the average retrieval
    score handed to the validator is 1 whenever a document is returned. *)
Theorem degraded_rerank_average
  (self : HybridRetriever) (query : string) (k : option nat)
  (apply_filters : bool) (filter_kwargs : option FilterKwargs)
  (r : RetrievalResult) :
  reranker self = None ->
  retrieve self query k HYBRID_RERANK apply_filters filter_kwargs = Ok r ->
  Retrieval.scores r = repeat 1 (length (documents r))
  /\ (documents r <> [] -> average (Retrieval.scores r) == 1).
Proof.
  intros Hre H.
  assert (Retrieval.scores r = repeat 1 (length (documents r))) as Hs.
  { destruct (RetrieveTheory.retrieve_stages _ _ _ _ _ _ _ H)
      as [docs0 [scores0 [Hrun Hgov]]].
    simpl in Hrun.
    destruct (hybrid_search _ _ _ _ _) as [[d s]|]; simpl in Hrun;
      [|discriminate].
    rewrite (RetrieveTheory.rerank_without_reranker _ _ _ _ Hre) in Hrun.
    inversion Hrun; subst docs0 scores0. clear Hrun.
    unfold govern in Hgov.
    destruct filter_kwargs as [kw|];
      [destruct (apply_filters && kwargs_truthy kw)|];
      injection Hgov as Hd Hsc; rewrite Hsc, Hd; try reflexivity.
    rewrite firstn_repeat; [reflexivity|].
    apply FilterTheory.apply_kwargs_length. }
  split; [exact Hs|].
  intros Hne. rewrite Hs. apply average_ones.
  destruct (documents r); [congruence | simpl; lia].
Qed.

Lemma degraded_rerank_average_witness :
  exists r,
    retrieve Examples.corpus "q" (Some 1%nat) HYBRID_RERANK true None = Ok r
    /\ average (Retrieval.scores r) == 1.
Proof.
  destruct (retrieve Examples.corpus "q" (Some 1%nat) HYBRID_RERANK true None)
    as [r|] eqn:H; [|vm_compute in H; discriminate H].
  exists r. split; [reflexivity|].
  apply (proj2 (degraded_rerank_average Examples.corpus "q" (Some 1%nat) true
                  None r eq_refl H)).
  vm_compute in H. inversion H. discriminate.
Defined.

End AnswerFacts.
